(** * gather_samplers.py: locating, grouping and rendering experiment videos

    A shallow embedding of [src/gather_samplers.py] and the properties of
    its three stages: the Locator ([find_videos]), the Aggregator
    ([group_by_task_model]) and the Renderer ([render_html]), together
    with the driver [main].

    Conventions of the embedding.
    - A Python [str] is a sequence of Unicode code points: [list N].
    - A Python [int] is a [Z].
    - A record dictionary with a fixed set of keys is a [Record].
    - The dictionary [grouped], whose iteration order the program never
      observes (every traversal goes through [set] or [sorted]), is a
      [gmap]; the dictionary [models_by_task], whose insertion order is
      printed by [json.dumps], is an association list.
    - An exception is a value [Raise e] of the result type; [print] and
      the file write are recorded in a list of effects.

    What the embedding takes from outside the script.
    - The file system is a tree of named entries under the videos
      directory; paths are POSIX paths.
    - The table of decimal digits of the interpreter is a parameter.
    - Printing and writing the output file succeed, and [int] is not
      limited in the number of digits it converts. *)

From Stdlib Require Import ZArith NArith List String Ascii.
From stdpp Require Import base numbers list option gmap sorting.

Set Default Proof Using "Type".
#[local] Set Warnings "-register-all".

(** ** Strings *)

Abbreviation pystr := (list N).

(** A literal of the source, read character by character. *)
Definition lit (s : string) : pystr := N_of_ascii <$> list_ascii_of_string s.

Arguments lit : simpl never.

(** The double quote character, U+0022. *)
Definition dq : pystr := [34%N].

(** A literal placed between double quotes. *)
Definition q (s : string) : pystr := dq ++ lit s ++ dq.

(** [needle in hay] on strings: [needle] occurs as a contiguous block. *)
Fixpoint py_in (needle hay : pystr) : bool :=
  if bool_decide (needle `prefix_of` hay) then true
  else match hay with
       | [] => false
       | _ :: hay' => py_in needle hay'
       end.

(** [sep.join(parts)]. *)
Fixpoint py_join (sep : pystr) (parts : list pystr) : pystr :=
  match parts with
  | [] => []
  | [p] => p
  | p :: rest => p ++ sep ++ py_join sep rest
  end.

(** [a < b] on strings: lexicographic on code points. *)
Fixpoint str_lt (a b : pystr) : bool :=
  match a, b with
  | _, [] => false
  | [], _ :: _ => true
  | x :: a', y :: b' =>
      if (x <? y)%N then true
      else if (y <? x)%N then false
      else str_lt a' b'
  end.

(** [str(n)] for a non-negative integer: its decimal digits. *)
Definition digit_char (d : N) : N := (48 + d)%N.

Fixpoint str_of_pos_fuel (fuel : nat) (n : N) (acc : pystr) : pystr :=
  match fuel with
  | O => acc
  | S fuel' =>
      let acc' := digit_char (n mod 10)%N :: acc in
      if (n / 10 =? 0)%N then acc' else str_of_pos_fuel fuel' (n / 10)%N acc'
  end.

Definition py_str_nat (n : nat) : pystr :=
  str_of_pos_fuel (S n) (N.of_nat n) [].

(** ** Exceptions and effects *)

Inductive pyexn : Type :=
  | IndexError
  | KeyError
  | ValueError.

Inductive result (A : Type) : Type :=
  | Ok (a : A)
  | Raise (e : pyexn).
Arguments Ok {A} a.
Arguments Raise {A} e.

#[export] Instance result_ret : MRet result := λ A a, Ok a.

#[export] Instance result_bind : MBind result := λ A B f m,
  match m with
  | Ok a => f a
  | Raise e => Raise e
  end.

#[export] Instance result_fmap : FMap result := λ A B f m,
  match m with
  | Ok a => Ok (f a)
  | Raise e => Raise e
  end.

(** What the process does to the outside: a line on standard output
    ([print] appends the newline) or a whole file written. *)
Inductive effect : Type :=
  | Stdout (line : pystr)
  | WriteFile (name contents : pystr).

(** A computation that logs effects and may raise. *)
Definition Py (A : Type) : Type := list effect * result A.

Definition print (line : pystr) : Py unit := ([Stdout line], Ok tt).
Definition write_file (name contents : pystr) : Py unit :=
  ([WriteFile name contents], Ok tt).
Definition lift {A} (r : result A) : Py A := ([], r).

#[export] Instance py_ret : MRet Py := λ A a, ([], Ok a).

#[export] Instance py_bind : MBind Py := λ A B f m,
  match m with
  | (w, Ok a) => let '(w', r) := f a in (w ++ w', r)
  | (w, Raise e) => (w, Raise e)
  end.

(** [l[i]] with Python's negative indices; out of range raises. *)
Definition py_getitem {A} (l : list A) (i : Z) : result A :=
  let n := Z.of_nat (length l) in
  let j := if (i <? 0)%Z then (i + n)%Z else i in
  if (j <? 0)%Z then Raise IndexError
  else match l !! Z.to_nat j with
       | Some x => Ok x
       | None => Raise IndexError
       end.

(** ** The interpreter's character database *)

(** [decimal c] is the value of [c] as a decimal digit when [c] has the
    Unicode category Nd, which is what [\d] matches in a [str] pattern
    and what [int] accepts.  The table belongs to the interpreter, not to
    the script, so it is a parameter; [ascii_digits] states its rows for
    [0] to [9], the only ones a statement below relies on. *)
Class UnicodeData : Type := { decimal : N → option Z }.

Definition ascii_digits `{U : UnicodeData} : Prop :=
  ∀ d : N, (d < 10)%N → decimal (48 + d) = Some (Z.of_N d).

Definition is_ascii_digit (c : N) : bool := (48 <=? c)%N && (c <=? 57)%N.

Definition is_digit `{U : UnicodeData} (c : N) : bool :=
  match decimal c with Some _ => true | None => false end.

(** A table with the ASCII digits and the Arabic-Indic digits
    U+0660..U+0669, enough to run examples. *)
Definition sample_decimal (c : N) : option Z :=
  if is_ascii_digit c then Some (Z.of_N (c - 48))
  else if (1632 <=? c)%N && (c <=? 1641)%N then Some (Z.of_N (c - 1632))
  else None.

Definition sample_unicode : UnicodeData := {| decimal := sample_decimal |}.

(** ** Locator *)

Definition VIDEO_NAME : pystr := lit "sim.mp4".

(** [ITER_RE.search(s)] for [ITER_RE = re.compile(r"(\d+)")]: group 1 of
    the leftmost match, which is greedy. *)
Fixpoint take_digits `{U : UnicodeData} (s : pystr) : pystr :=
  match s with
  | [] => []
  | c :: s' => if is_digit c then c :: take_digits s' else []
  end.

Fixpoint ITER_RE_search `{U : UnicodeData} (s : pystr) : option pystr :=
  match s with
  | [] => None
  | c :: s' => if is_digit c then Some (c :: take_digits s')
               else ITER_RE_search s'
  end.

(** [int(s)] on a non-empty string of decimal digits, the only strings
    the script converts.  Anything else is answered with [ValueError],
    which no caller observes.  CPython's cap on the length of the
    numeral (4300 digits by default) is left out: a path segment is
    shorter. *)
Definition int_step `{U : UnicodeData} (acc : option Z) (c : N) : option Z :=
  match acc, decimal c with
  | Some n, Some d => Some (10 * n + d)%Z
  | _, _ => None
  end.

Definition py_int `{U : UnicodeData} (s : pystr) : result Z :=
  match s with
  | [] => Raise ValueError
  | _ => match foldl int_step (Some 0%Z) s with
         | Some n => Ok n
         | None => Raise ValueError
         end
  end.

Record VideoRecord : Type := mkVideo {
  path : pystr;
  abs_path : pystr;
  scene : pystr;
  task : pystr;
  model : pystr;
  run_id : pystr;
  iter_name : pystr;
  iter_num : Z
}.

#[export] Instance VideoRecord_eq_dec : EqDecision VideoRecord.
Proof. solve_decision. Defined.

(** The tree found at the videos directory.  A directory lists its
    entries by name, in the order the traversal meets them. *)
Inductive fsnode : Type :=
  | File
  | Dir (entries : list (pystr * fsnode)).

(** Induction on a tree, with the hypothesis for every entry of a
    directory. *)
Fixpoint fsnode_ind' (P : fsnode → Prop) (HFile : P File)
    (HDir : ∀ entries, Forall (λ e, P e.2) entries → P (Dir entries))
    (d : fsnode) : P d :=
  match d with
  | File => HFile
  | Dir entries =>
      HDir entries
        ((fix go (es : list (pystr * fsnode)) : Forall (λ e, P e.2) es :=
            match es with
            | [] => @List.Forall_nil _ _
            | e :: es' =>
                @List.Forall_cons _ _ _ _
                  (fsnode_ind' P HFile HDir e.2) (go es')
            end) entries)
  end.

(** [d.rglob(name)] as paths relative to [d]: the entries called [name]
    of [d] and of every directory below it. *)
Fixpoint rglob (name : pystr) (d : fsnode) : list (list pystr) :=
  match d with
  | File => []
  | Dir entries =>
      (entries ≫= λ e, if bool_decide (e.1 = name) then [[e.1]] else [])
      ++ (entries ≫= λ e, cons e.1 <$> rglob name e.2)
  end.

(** What the script sees of the machine: [base] is
    [str(Path(args.base_dir).resolve())] and [videos] the tree at
    [base/static/videos/highlight-videos], [None] when nothing is there. *)
Record world : Type := mkWorld {
  base : pystr;
  videos : option fsnode
}.

(** [str(a / b)] for an absolute [a] as [resolve] returns it and a
    relative [b] in normal form. *)
Definition joinpath (a b : pystr) : pystr :=
  if bool_decide (lit "/" `suffix_of` a) then a ++ b else a ++ lit "/" ++ b.

Definition videos_dir (b : pystr) : pystr :=
  joinpath (joinpath (joinpath b (lit "static")) (lit "videos"))
           (lit "highlight-videos").

Definition model_idx (parts : list pystr) : option nat :=
  fst <$> list_find (λ part, Is_true (py_in (lit "gpt-5") part)) parts.

(** The body of the loop of [find_videos] for the path with segments
    [parts] relative to the videos directory [vdir]: [Ok None] is
    [continue], [Ok (Some v)] is [res.append(v)]. *)
Definition video_of_parts `{U : UnicodeData} (vdir : pystr) (parts : list pystr)
    : result (option VideoRecord) :=
  let rel := py_join (lit "/") parts in
  let web_path := lit "static/videos/highlight-videos/" ++ rel in
  if bool_decide (length parts < 6) then Ok None
  else match model_idx parts with
       | None => Ok None
       | Some i =>
           let i := Z.of_nat i in
           scene ← py_getitem parts 1;
           task ← py_getitem parts (i - 1);
           model ← py_getitem parts i;
           run_id ← py_getitem parts (i + 1);
           iter_num ← match ITER_RE_search run_id with
                      | Some g => Some <$> py_int g
                      | None => Ok None
                      end;
           Ok (Some {| path := web_path;
                       abs_path := joinpath vdir rel;
                       scene := scene;
                       task := task;
                       model := model;
                       run_id := run_id;
                       iter_name := run_id;
                       iter_num := match iter_num with
                                   | Some n => n
                                   | None => 0%Z
                                   end |})
       end.

Fixpoint scan `{U : UnicodeData} (vdir : pystr) (paths : list (list pystr))
    (res : list VideoRecord) : result (list VideoRecord) :=
  match paths with
  | [] => Ok res
  | parts :: paths' =>
      r ← video_of_parts vdir parts;
      scan vdir paths' (match r with Some v => res ++ [v] | None => res end)
  end.

Definition find_videos `{U : UnicodeData} (w : world) : Py (list VideoRecord) :=
  let vdir := videos_dir (base w) in
  match videos w with
  | None =>
      print (lit "Videos directory not found at " ++ vdir);;
      mret []
  | Some tree =>
      print (lit "Searching for videos in " ++ vdir);;
      lift (scan vdir (rglob VIDEO_NAME tree) [])
  end.

(** ** Aggregator *)

(** [list.sort(key=...)] and [sorted(..., key=...)]: the sort is stable
    and compares keys with [<] only.  Insertion from the right end gives
    the same list: an element goes after the elements of smaller key and
    before every other one that followed it. *)
Fixpoint insert_by {A K} (lt : K → K → bool) (key : A → K) (x : A)
    (l : list A) : list A :=
  match l with
  | [] => [x]
  | y :: l' => if lt (key y) (key x) then y :: insert_by lt key x l'
               else x :: y :: l'
  end.

Definition py_sort {A K} (lt : K → K → bool) (key : A → K) (l : list A)
    : list A :=
  foldr (insert_by lt key) [] l.

(** [<] on the tuples [(int, str)] and [(str, str)]: the first
    components decide unless they are equal. *)
Definition int_str_lt (a b : Z * pystr) : bool :=
  if bool_decide (a.1 = b.1) then str_lt a.2 b.2 else (a.1 <? b.1)%Z.

Definition str_str_lt (a b : pystr * pystr) : bool :=
  if bool_decide (a.1 = b.1) then str_lt a.2 b.2 else str_lt a.1 b.1.

Definition group_key (v : VideoRecord) : pystr * pystr := (task v, model v).

Definition sort_key (x : VideoRecord) : Z * pystr := (iter_num x, path x).

(** [grouped[key].append(v)] on a [defaultdict(list)]. *)
Definition append_video (grouped : gmap (pystr * pystr) (list VideoRecord))
    (v : VideoRecord) : gmap (pystr * pystr) (list VideoRecord) :=
  <[group_key v := default [] (grouped !! group_key v) ++ [v]]> grouped.

(** The body of the second loop, for the list held at one key. *)
Definition sort_and_trim (videos_for_key : list VideoRecord)
    : list VideoRecord :=
  let sorted := py_sort int_str_lt sort_key videos_for_key in
  if bool_decide (length sorted = 6) then take 5 sorted else sorted.

Definition group_by_task_model (videos : list VideoRecord)
    : gmap (pystr * pystr) (list VideoRecord) :=
  sort_and_trim <$> foldl append_video ∅ videos.

(** ** Renderer *)

Definition newline : pystr := [10%N].
Definition backslash : pystr := [92%N].

(** [json.dumps] on a dictionary from strings to lists of strings, with
    the default separators and [ensure_ascii]. *)
Definition hex_digit (d : N) : N :=
  if (d <? 10)%N then (48 + d)%N else (87 + d)%N.

Definition hex4 (n : N) : pystr :=
  [hex_digit (n / 4096 mod 16); hex_digit (n / 256 mod 16);
   hex_digit (n / 16 mod 16); hex_digit (n mod 16)]%N.

Definition json_char (c : N) : pystr :=
  if (c =? 34)%N then backslash ++ dq
  else if (c =? 92)%N then backslash ++ backslash
  else if (c =? 8)%N then backslash ++ lit "b"
  else if (c =? 12)%N then backslash ++ lit "f"
  else if (c =? 10)%N then backslash ++ lit "n"
  else if (c =? 13)%N then backslash ++ lit "r"
  else if (c =? 9)%N then backslash ++ lit "t"
  else if (32 <=? c)%N && (c <=? 126)%N then [c]
  else if (c <? 65536)%N then backslash ++ lit "u" ++ hex4 c
  else
    let n := (c - 65536)%N in
    let s1 := N.lor 55296 (N.land (N.shiftr n 10) 1023) in
    let s2 := N.lor 56320 (N.land n 1023) in
    backslash ++ lit "u" ++ hex4 s1 ++ backslash ++ lit "u" ++ hex4 s2.

Definition json_str (s : pystr) : pystr := dq ++ (s ≫= json_char) ++ dq.

Definition json_list (l : list pystr) : pystr :=
  lit "[" ++ py_join (lit ", ") (json_str <$> l) ++ lit "]".

Definition json_dumps (d : list (pystr * list pystr)) : pystr :=
  lit "{"
  ++ py_join (lit ", ")
       ((λ kv, json_str kv.1 ++ lit ": " ++ json_list kv.2) <$> d)
  ++ lit "}".

(** [d[k]] on a dictionary kept as an association list. *)
Fixpoint dict_get {V} (d : list (pystr * V)) (k : pystr) : result V :=
  match d with
  | [] => Raise KeyError
  | (k', v) :: d' => if bool_decide (k' = k) then Ok v else dict_get d' k
  end.

Definition sorted_str (l : list pystr) : list pystr := py_sort str_lt id l.

(** [sorted(set(task for task, _ in grouped.keys()))] *)
Definition tasks_of (grouped : gmap (pystr * pystr) (list VideoRecord))
    : list pystr :=
  sorted_str (elements (set_map fst (dom grouped) : gset pystr)).

(** [sorted(set(m for tt, m in grouped.keys() if tt == t))] *)
Definition models_of (grouped : gmap (pystr * pystr) (list VideoRecord))
    (t : pystr) : list pystr :=
  sorted_str (elements
    (set_map snd (filter (λ k, k.1 = t) (dom grouped)) : gset pystr)).

Definition models_by_task_of (grouped : gmap (pystr * pystr) (list VideoRecord))
    : list (pystr * list pystr) :=
  (λ t, (t, models_of grouped t)) <$> tasks_of grouped.

Definition html_head : list pystr :=
  [ lit "<!DOCTYPE html>";
    lit "<html>";
    lit "<head>";
    lit "  <meta charset=" ++ q "utf-8" ++ lit ">";
    lit "  <meta name=" ++ q "viewport" ++ lit " content="
      ++ q "width=device-width, initial-scale=1" ++ lit ">";
    lit "  <link rel=" ++ q "stylesheet" ++ lit " href="
      ++ q "static/css/bulma.min.css" ++ lit ">";
    lit "</head>";
    lit "<body>" ].

Definition option_line (v : pystr) : pystr :=
  lit "            <option value=" ++ dq ++ v ++ dq ++ lit ">" ++ v
  ++ lit "</option>".

Definition task_selector (tasks : list pystr) : list pystr :=
  [ lit "    <div class=" ++ q "field" ++ lit ">";
    lit "      <label class=" ++ q "label" ++ lit ">Task</label>";
    lit "      <div class=" ++ q "control" ++ lit ">";
    lit "        <div class=" ++ q "select" ++ lit ">";
    lit "          <select id=" ++ q "task-select" ++ lit " onchange="
      ++ q "updateTask()" ++ lit ">" ]
  ++ (option_line <$> tasks)
  ++ [ lit "          </select>";
       lit "        </div>";
       lit "      </div>";
       lit "    </div>" ].

Definition model_selector (models : list pystr) : list pystr :=
  [ lit "    <div class=" ++ q "field" ++ lit ">";
    lit "      <label class=" ++ q "label" ++ lit ">Model</label>";
    lit "      <div class=" ++ q "control" ++ lit ">";
    lit "        <div class=" ++ q "select" ++ lit ">";
    lit "          <select id=" ++ q "model-select" ++ lit " onchange="
      ++ q "updateModel()" ++ lit ">" ]
  ++ (option_line <$> models)
  ++ [ lit "          </select>";
       lit "        </div>";
       lit "      </div>";
       lit "    </div>" ].

Definition caption_of (idx : nat) : pystr :=
  lit "Feedback iteration " ++ py_str_nat idx.

(** The lines of one card: the body of [for idx, v in enumerate(vids)]. *)
Definition render_card (idx : nat) (v : VideoRecord) : list pystr :=
  let caption := caption_of idx in
  [ lit "      <div class=" ++ q "column is-one-third-desktop is-half-mobile"
      ++ lit ">";
    lit "        <div class=" ++ q "card" ++ lit ">";
    lit "          <div class=" ++ q "card-image" ++ lit ">";
    lit "            <video autoplay loop muted playsinline preload="
      ++ q "metadata" ++ lit " style=" ++ q "width:100%; height:auto;"
      ++ lit ">";
    lit "              <source src=" ++ dq ++ path v ++ dq ++ lit " type="
      ++ q "video/mp4" ++ lit ">";
    lit "            </video>";
    lit "          </div>";
    lit "          <div class=" ++ q "card-content" ++ lit ">";
    lit "            <p class=" ++ q "subtitle is-6" ++ lit ">" ++ caption
      ++ lit "</p>";
    lit "          </div>";
    lit "        </div>";
    lit "      </div>" ].

Definition section_id_of (k : pystr * pystr) : pystr := k.1 ++ lit "-" ++ k.2.

Definition section_open (section_id : pystr) : pystr :=
  lit "<section class=" ++ q "section video-grid" ++ lit " id=" ++ dq
  ++ section_id ++ dq ++ lit " style=" ++ q "display:none;" ++ lit ">".

(** The three characters between task and model in the heading, as the
    source spells them: U+00E2, U+20AC, U+201D. *)
Definition title_dash : pystr := [226; 8364; 8221]%N.

(** The lines of one section: the body of the loop over the groups. *)
Definition render_section (item : (pystr * pystr) * list VideoRecord)
    : list pystr :=
  let task := item.1.1 in
  let model := item.1.2 in
  let vids := item.2 in
  let section_id := section_id_of item.1 in
  [ section_open section_id;
    lit "  <div class=" ++ q "container is-max-desktop" ++ lit ">";
    lit "    <h2 class=" ++ q "title is-3" ++ lit ">" ++ task ++ lit " "
      ++ title_dash ++ lit " " ++ model ++ lit "</h2>";
    lit "    <div class=" ++ q "columns is-multiline" ++ lit ">" ]
  ++ concat (imap render_card vids)
  ++ [ lit "    </div>";
       lit "  </div>";
       lit "</section>";
       [] ].

(** [sorted(grouped.items(), key=lambda x: (x[0][0], x[0][1]))] *)
Definition sorted_items (grouped : gmap (pystr * pystr) (list VideoRecord))
    : list ((pystr * pystr) * list VideoRecord) :=
  py_sort str_str_lt fst (map_to_list grouped).

Definition script (models_by_task : list (pystr * list pystr)) : list pystr :=
  [ lit "<script>";
    lit "const modelsByTask = " ++ json_dumps models_by_task ++ lit ";";
    lit "function updateTask() {";
    lit "  const task = document.getElementById(" ++ q "task-select"
      ++ lit ").value;";
    lit "  const modelSel = document.getElementById(" ++ q "model-select"
      ++ lit ");";
    lit "  modelSel.innerHTML = " ++ dq ++ dq ++ lit ";";
    lit "  for (const m of modelsByTask[task]) {";
    lit "    const opt = document.createElement(" ++ q "option" ++ lit ");";
    lit "    opt.value = m; opt.textContent = m;";
    lit "    modelSel.appendChild(opt);";
    lit "  }";
    lit "  updateModel();";
    lit "}";
    lit "function updateModel() {";
    lit "  const task = document.getElementById(" ++ q "task-select"
      ++ lit ").value;";
    lit "  const model = document.getElementById(" ++ q "model-select"
      ++ lit ").value;";
    lit "  // hide all sections";
    lit "  document.querySelectorAll(" ++ q ".video-grid"
      ++ lit ").forEach(s => s.style.display = " ++ q "none" ++ lit ");";
    lit "  // show the selected one";
    lit "  const section = document.getElementById(task + " ++ q "-"
      ++ lit " + model);";
    lit "  if (section) section.style.display = " ++ q "block" ++ lit ";";
    lit "}";
    lit "// initialize";
    lit "updateTask();";
    lit "</script>" ].

(** The list [out] of [render_html] when the function reaches its last
    statement; [models_by_task[tasks[0]]] is the one place that raises. *)
Definition render_lines (grouped : gmap (pystr * pystr) (list VideoRecord))
    : result (list pystr) :=
  let tasks := tasks_of grouped in
  let models_by_task := models_by_task_of grouped in
  first_task ← py_getitem tasks 0;
  first_models ← dict_get models_by_task first_task;
  Ok (html_head
      ++ [ lit "<div class=" ++ q "section" ++ lit ">";
           lit "  <div class=" ++ q "container is-max-desktop" ++ lit ">" ]
      ++ task_selector tasks
      ++ model_selector first_models
      ++ [ lit "  </div>";
           lit "</div>" ]
      ++ (sorted_items grouped ≫= render_section)
      ++ script models_by_task
      ++ [ lit "</body>";
           lit "</html>" ]).

(** [render_html]: the lines joined by newlines. *)
Definition render_html (grouped : gmap (pystr * pystr) (list VideoRecord))
    : result pystr :=
  py_join newline <$> render_lines grouped.

(** ** Driver *)

(** [s.split(c)] on one character. *)
Fixpoint split_on (c : N) (s : pystr) : list pystr :=
  match s with
  | [] => [[]]
  | x :: s' =>
      if (x =? c)%N then [] :: split_on c s'
      else match split_on c s' with
           | [] => [[x]]
           | w :: ws => (x :: w) :: ws
           end
  end.

(** [str(Path(s))] on a POSIX system: empty and [.] segments go, a
    leading [/] stays, exactly two leading slashes stay two. *)
Definition posix_path_str (s : pystr) : pystr :=
  let root :=
    if bool_decide (lit "///" `prefix_of` s) then lit "/"
    else if bool_decide (lit "//" `prefix_of` s) then lit "//"
    else if bool_decide (lit "/" `prefix_of` s) then lit "/"
    else [] in
  let parts :=
    filter (λ p, p ≠ [] ∧ p ≠ lit ".") (split_on 47 s) in
  let r := root ++ py_join (lit "/") parts in
  if bool_decide (r = []) then lit "." else r.

Definition no_videos_comment : pystr := lit "<!-- No videos found -->".

(** [main], given the machine and the value of [--out]. *)
Definition main `{U : UnicodeData} (w : world) (out : option pystr) : Py unit :=
  videos ← find_videos w;
  match videos with
  | [] => print no_videos_comment
  | _ :: _ =>
      let grouped := group_by_task_model videos in
      html ← lift (render_html grouped);
      match out with
      | Some name =>
          if bool_decide (name = []) then print html
          else
            let outp := posix_path_str name in
            write_file outp html;;
            print (lit "Wrote HTML to " ++ outp)
      | None => print html
      end
  end.

(** * Vocabulary of the statements *)

(** A boolean [<] that is a strict total order. *)
Record strict_total {K} (lt : K → K → bool) : Prop := {
  lt_irrefl : ∀ a, lt a a = false;
  lt_trans : ∀ a b c, lt a b = true → lt b c = true → lt a c = true;
  lt_connex : ∀ a b, lt a b = false → lt b a = false → a = b
}.

(** [x] may stand before [y] in a list sorted by [key]. *)
Definition key_le {A K} (lt : K → K → bool) (key : A → K) (x y : A) : Prop :=
  lt (key y) (key x) = false.

(** ** Locator *)

(** What [Path.parts] gives for a relative path: at least one segment,
    and no segment holds the separator [/]. *)
Definition proper_segments (parts : list pystr) : Prop :=
  parts ≠ [] ∧ Forall (λ s, 47%N ∉ s) parts.

(** [i] is the index of the first segment that contains [gpt-5]. *)
Definition first_gpt5 (parts : list pystr) (i : nat) : Prop :=
  (∃ m, parts !! i = Some m ∧ py_in (lit "gpt-5") m = true) ∧
  ∀ j s, j < i → parts !! j = Some s → py_in (lit "gpt-5") s = false.

(** The value of a numeral, most significant digit first. *)
Fixpoint positional (ds : list Z) : Z :=
  match ds with
  | [] => 0
  | d :: ds' => d * 10 ^ Z.of_nat (length ds') + positional ds'
  end.

(** The records of the paths that are not skipped, in the order of the
    paths. *)
Definition located `{U : UnicodeData} (vdir : pystr) (paths : list (list pystr))
    : list VideoRecord :=
  omap (λ parts, match video_of_parts vdir parts with
                 | Ok r => r
                 | Raise _ => None
                 end) paths.

(** The one line the Locator prints. *)
Definition locator_message (w : world) : pystr :=
  match videos w with
  | None => lit "Videos directory not found at " ++ videos_dir (base w)
  | Some _ => lit "Searching for videos in " ++ videos_dir (base w)
  end.

(** ** Aggregator *)

(** The records of [videos] with group key [k], in the order of the
    input, and the same records after the sort. *)
Definition members (k : pystr * pystr) (videos : list VideoRecord)
    : list VideoRecord :=
  filter (λ v, group_key v = k) videos.

Definition sorted_members (k : pystr * pystr) (videos : list VideoRecord)
    : list VideoRecord :=
  py_sort int_str_lt sort_key (members k videos).

(** Ascending by [(iter_num, path)]: of two records the earlier has the
    smaller iteration number, or the same one and a path that is not
    greater. *)
Definition ascending (g : list VideoRecord) : Prop :=
  ∀ i j x y, i < j → g !! i = Some x → g !! j = Some y →
    (iter_num x < iter_num y)%Z ∨
    (iter_num x = iter_num y ∧ str_lt (path y) (path x) = false).

(** No two different records of one group share a sort key. *)
Definition distinct_keys (videos : list VideoRecord) : Prop :=
  ∀ x y, x ∈ videos → y ∈ videos →
    group_key x = group_key y → sort_key x = sort_key y → x = y.

(** ** Renderer *)

(** The opening line of a hidden section of the page starts with this
    text, which is followed by the identifier. *)
Definition section_prefix : pystr :=
  lit "<section class=" ++ q "section video-grid" ++ lit " id=" ++ dq.

Definition is_section_open (line : pystr) : Prop :=
  section_prefix `prefix_of` line.

#[export] Instance is_section_open_dec (line : pystr) :
  Decision (is_section_open line).
Proof. unfold is_section_open. apply _. Defined.


(** * Sample inputs *)

(** A tree holding the single path [names]. *)
Fixpoint chain (names : list pystr) : fsnode :=
  match names with
  | [] => File
  | n :: names' => Dir [(n, chain names')]
  end.

(** The layout the script is written for. *)
Definition sample_parts : list pystr :=
  [lit "set1"; lit "kitchen"; lit "runs"; lit "stack";
   lit "gpt-5-2025-08-07"; lit "run_03"; lit "sim.mp4"].

Definition sample_world : world :=
  {| base := lit "/srv/site"; videos := Some (chain sample_parts) |}.



(** A machine without the videos directory, and one whose videos
    directory is empty. *)
Definition absent_world : world :=
  {| base := lit "/srv/site"; videos := None |}.

Definition empty_world : world :=
  {| base := lit "/srv/site"; videos := Some (Dir []) |}.

(** The record of run [n] of one task and model, and six of them listed
    out of order. *)
Definition run_video (n : nat) : VideoRecord :=
  let run := lit "run_" ++ py_str_nat n in
  let rel := py_join (lit "/")
               [lit "set1"; lit "kitchen"; lit "taskX"; lit "gpt-5-2025-08-07";
                run; lit "sim.mp4"] in
  {| path := lit "static/videos/highlight-videos/" ++ rel;
     abs_path := lit "/srv/site/static/videos/highlight-videos/" ++ rel;
     scene := lit "kitchen";
     task := lit "taskX";
     model := lit "gpt-5-2025-08-07";
     run_id := run;
     iter_name := run;
     iter_num := Z.of_nat n |}.

Definition six_runs : list VideoRecord :=
  run_video <$> [3; 0; 5; 1; 4; 2].

(** The records of one relative path found under two project roots: they
    agree on every field but the absolute path. *)
Definition twin_under (root : pystr) : VideoRecord :=
  let rel := lit "set1/kitchen/runs/taskX/gpt-5/run_1/sim.mp4" in
  {| path := lit "static/videos/highlight-videos/" ++ rel;
     abs_path := root ++ lit "/static/videos/highlight-videos/" ++ rel;
     scene := lit "kitchen";
     task := lit "taskX";
     model := lit "gpt-5";
     run_id := lit "run_1";
     iter_name := lit "run_1";
     iter_num := 1 |}.

Definition twin_a : VideoRecord := twin_under (lit "/srv/a").
Definition twin_b : VideoRecord := twin_under (lit "/srv/b").

(** Two directories whose task and model names join to one identifier:
    task [a] with model [b-gpt-5], and task [a-b] with model [gpt-5]. *)
Definition clash_tree : fsnode :=
  Dir [(lit "set1", Dir [(lit "kitchen", Dir [(lit "runs", Dir
    [(lit "a", chain [lit "b-gpt-5"; lit "r1"; lit "sim.mp4"]);
     (lit "a-b", chain [lit "gpt-5"; lit "r1"; lit "sim.mp4"])])])])].

Definition clash_world : world :=
  {| base := lit "/srv/site"; videos := Some clash_tree |}.


(** ** Further vocabulary *)

(** The decimal values of the table are not negative. *)
Definition decimal_nonneg `{U : UnicodeData} : Prop :=
  ∀ c d, decimal c = Some d → (0 ≤ d)%Z.

(** The lines of the page that are option elements of the two controls,
    and those that name the source of a video. *)
Definition option_prefix : pystr :=
  lit "            <option value=" ++ dq.

Definition is_option_line (line : pystr) : Prop :=
  option_prefix `prefix_of` line.

#[export] Instance is_option_line_dec (line : pystr) :
  Decision (is_option_line line).
Proof. unfold is_option_line. apply _. Defined.

Definition source_line (web_path : pystr) : pystr :=
  lit "              <source src=" ++ dq ++ web_path ++ dq ++ lit " type="
  ++ q "video/mp4" ++ lit ">".

Definition source_prefix : pystr :=
  lit "              <source src=" ++ dq.

Definition is_source_line (line : pystr) : Prop :=
  source_prefix `prefix_of` line.

#[export] Instance is_source_line_dec (line : pystr) :
  Decision (is_source_line line).
Proof. unfold is_source_line. apply _. Defined.

(** A line whose first [n] characters differ from those of a prefix does
    not start with the prefix. *)
Ltac no_prefix n :=
  let k := fresh "k" in
  let Hk := fresh "Hk" in
  intros [k Hk]; apply (f_equal (take n)) in Hk;
  vm_compute in Hk; discriminate Hk.

(** A strict order on a list: every element is below the later ones. *)
Definition strictly_ascending {A} (lt : A → A → bool) (l : list A) : Prop :=
  StronglySorted (λ a b, lt a b = true) l.

(** ** The iteration number in the words of the specification *)

(** The first maximal contiguous run of ASCII digits of a string, empty
    when the string has none, and its value as a decimal numeral, [0]
    for the empty run. *)
Fixpoint take_ascii_digits (s : pystr) : pystr :=
  match s with
  | [] => []
  | c :: s' => if is_ascii_digit c then c :: take_ascii_digits s' else []
  end.

Fixpoint spec_first_ascii_run (s : pystr) : pystr :=
  match s with
  | [] => []
  | c :: s' => if is_ascii_digit c then c :: take_ascii_digits s'
               else spec_first_ascii_run s'
  end.

Definition spec_iter_number (s : pystr) : Z :=
  positional ((λ c, Z.of_N c - 48)%Z <$> spec_first_ascii_run s).

(** ** Section elements of the document *)

(** The text that opens a section element. *)
Definition section_tag : pystr := lit "<section".

(** [s] starts with [pat]; and the number of places of [s] at which
    [pat] starts, which is [s.count(pat)] for a text that cannot overlap
    itself. *)
Fixpoint starts_with (pat s : pystr) : bool :=
  match pat, s with
  | [], _ => true
  | _ :: _, [] => false
  | p :: pat', c :: s' => (p =? c)%N && starts_with pat' s'
  end.

Fixpoint occurrences (pat s : pystr) : nat :=
  match s with
  | [] => 0
  | _ :: s' => (if starts_with pat s then 1 else 0) + occurrences pat s'
  end.








(** A task whose name holds a line break and the opening of a section. *)
Definition markup_task : pystr :=
  lit "x" ++ newline ++ section_prefix ++ lit "y".

Definition markup_tree : fsnode :=
  chain [lit "set1"; lit "kitchen"; lit "runs"; markup_task; lit "gpt-5";
         lit "run_1"; lit "sim.mp4"].

Definition markup_grouping : gmap (pystr * pystr) (list VideoRecord) :=
  group_by_task_model
    (located (U := sample_unicode) (videos_dir (lit "/srv/site"))
       (rglob VIDEO_NAME markup_tree)).

(** * Properties *)

(** ** Strings *)


Lemma str_lt_irrefl (a : pystr) : str_lt a a = false.
Proof.
  induction a as [|x a IH]; simpl; [done|].
  by rewrite N.ltb_irrefl.
Qed.

Lemma str_lt_trans (a b c : pystr) :
  str_lt a b = true → str_lt b c = true → str_lt a c = true.
Proof.
  revert b c. induction a as [|x a IH]; intros [|y b] [|z c]; simpl; try done.
  destruct (N.ltb_spec x y), (N.ltb_spec y x), (N.ltb_spec y z),
    (N.ltb_spec z y), (N.ltb_spec x z), (N.ltb_spec z x);
    try done; try lia.
  apply IH.
Qed.

Lemma str_lt_connex (a b : pystr) :
  str_lt a b = false → str_lt b a = false → a = b.
Proof.
  revert b. induction a as [|x a IH]; intros [|y b]; simpl; try done.
  destruct (N.ltb_spec x y), (N.ltb_spec y x); try done; try lia.
  intros Hab Hba. assert (x = y) as -> by lia. f_equal. by apply IH.
Qed.

(** ** Orders given by a boolean [<] *)

Lemma str_lt_strict_total : strict_total str_lt.
Proof.
  split; [apply str_lt_irrefl|apply str_lt_trans|apply str_lt_connex].
Qed.

Lemma int_str_lt_strict_total : strict_total int_str_lt.
Proof.
  split; unfold int_str_lt.
  - intros [n s]; simpl. rewrite bool_decide_eq_true_2 by done.
    apply str_lt_irrefl.
  - intros [n1 s1] [n2 s2] [n3 s3]; simpl.
    repeat case_bool_decide; subst; rewrite ?Z.ltb_lt; try lia; try done.
    apply str_lt_trans.
  - intros [n1 s1] [n2 s2]; simpl.
    repeat case_bool_decide; subst; rewrite ?Z.ltb_ge; try lia; try done.
    intros Hab Hba. f_equal. by apply str_lt_connex.
Qed.

Lemma str_str_lt_strict_total : strict_total str_str_lt.
Proof.
  split; unfold str_str_lt.
  - intros [n s]; simpl. rewrite bool_decide_eq_true_2 by done.
    apply str_lt_irrefl.
  - intros [n1 s1] [n2 s2] [n3 s3]; simpl.
    repeat case_bool_decide; subst; intros Hab Hbc;
      first [ done
            | by eapply str_lt_trans
            | pose proof (str_lt_trans _ _ _ Hab Hbc) as Hac;
              by rewrite str_lt_irrefl in Hac ].
  - intros [n1 s1] [n2 s2]; simpl.
    repeat case_bool_decide; subst; try done; intros Hab Hba.
    + f_equal. by apply str_lt_connex.
    + by pose proof (str_lt_connex _ _ Hab Hba).
Qed.

(** ** The sort *)

Section sorting.
Context {A K : Type} (lt : K → K → bool) (key : A → K).
Context `{!EqDecision K}.
Hypothesis Hlt : strict_total lt.

Local Abbreviation key_le := (key_le lt key).


Lemma key_le_trans x y z : key_le x y → key_le y z → key_le x z.
Proof using Hlt.
  unfold key_le. intros Hxy Hyz.
  destruct (lt (key z) (key x)) eqn:Hzx; [|done].
  destruct (lt (key x) (key y)) eqn:Hxy'.
  - by rewrite (lt_trans _ Hlt _ _ _ Hzx Hxy') in Hyz.
  - rewrite <-(lt_connex _ Hlt _ _ Hxy' Hxy) in Hyz. congruence.
Qed.

Lemma key_le_total x y : key_le x y ∨ key_le y x.
Proof using Hlt.
  unfold key_le. destruct (lt (key y) (key x)) eqn:Hyx; [|by left].
  right. destruct (lt (key x) (key y)) eqn:Hxy; [|done].
  pose proof (lt_trans _ Hlt _ _ _ Hxy Hyx) as Hxx.
  by rewrite (lt_irrefl _ Hlt) in Hxx.
Qed.

Lemma insert_by_perm x l : insert_by lt key x l ≡ₚ x :: l.
Proof.
  induction l as [|y l IH]; simpl; [done|].
  destruct (lt (key y) (key x)); [|done].
  rewrite IH. apply perm_swap.
Qed.

Lemma py_sort_perm l : py_sort lt key l ≡ₚ l.
Proof.
  induction l as [|x l IH]; simpl; [done|].
  unfold py_sort in *; simpl. by rewrite insert_by_perm, IH.
Qed.

Lemma py_sort_length l : length (py_sort lt key l) = length l.
Proof. by rewrite py_sort_perm. Qed.

Lemma insert_by_sorted x l :
  StronglySorted key_le l → StronglySorted key_le (insert_by lt key x l).
Proof using Hlt.
  induction l as [|y l IH]; simpl; intros Hs.
  - repeat constructor.
  - apply StronglySorted_cons in Hs as [Hy Hs].
    destruct (lt (key y) (key x)) eqn:Hyx.
    + apply StronglySorted_cons. split; [|by apply IH].
      rewrite insert_by_perm. constructor; [|done].
      destruct (key_le_total y x) as [?|Hxy]; [done|].
      unfold key_le in Hxy. congruence.
    + apply StronglySorted_cons. split.
      * constructor; [done|].
        eapply Forall_impl; [done|]. intros z Hz.
        by eapply key_le_trans.
      * by apply StronglySorted_cons.
Qed.

Lemma py_sort_sorted l : StronglySorted key_le (py_sort lt key l).
Proof using Hlt.
  induction l as [|x l IH]; simpl; [constructor|].
  by apply insert_by_sorted.
Qed.

(** Stability: records of one key keep the order they came in. *)
Lemma insert_by_stable k x l :
  filter (λ y, key y = k) (insert_by lt key x l) =
  filter (λ y, key y = k) (x :: l).
Proof using Hlt.
  induction l as [|y l IH]; simpl; [done|].
  destruct (lt (key y) (key x)) eqn:Hyx; [|done].
  rewrite (filter_cons _ y), IH, !filter_cons.
  repeat case_decide; try done.
  subst k. rewrite <-H0 in Hyx. by rewrite (lt_irrefl _ Hlt) in Hyx.
Qed.

Lemma py_sort_stable k l :
  filter (λ y, key y = k) (py_sort lt key l) = filter (λ y, key y = k) l.
Proof using Hlt.
  induction l as [|x l IH]; [done|].
  unfold py_sort in *; simpl.
  by rewrite insert_by_stable, !filter_cons, IH.
Qed.

(** Two sorted arrangements of the same records are the same list
    when no two different records share a key. *)
Lemma sorted_perm_unique l1 l2 :
  (∀ x y, x ∈ l1 → y ∈ l1 → key x = key y → x = y) →
  StronglySorted key_le l1 → StronglySorted key_le l2 →
  l1 ≡ₚ l2 → l1 = l2.
Proof using Hlt.
  revert l2. induction l1 as [|x l1 IH]; intros l2 Hinj Hs1 Hs2 Hp.
  - by apply Permutation_nil_l in Hp.
  - destruct l2 as [|y l2]; [by apply Permutation_nil_r in Hp|].
    apply StronglySorted_cons in Hs1 as [Hx Hs1].
    apply StronglySorted_cons in Hs2 as [Hy Hs2].
    assert (x = y) as ->.
    { assert (x ∈ y :: l2) as Hxin by (rewrite <-Hp; left).
      assert (y ∈ x :: l1) as Hyin by (rewrite Hp; left).
      apply elem_of_cons in Hxin as [?|Hxin]; [done|].
      apply elem_of_cons in Hyin as [?|Hyin]; [done|].
      apply Hinj; [left|by right|].
      rewrite Forall_forall in Hx, Hy.
      apply (lt_connex _ Hlt); [apply (Hy _ Hxin)|apply (Hx _ Hyin)]. }
    f_equal. apply IH; [|done|done|by apply Permutation_cons_inv in Hp].
    intros a b Ha Hb. apply Hinj; by right.
Qed.

Lemma py_sort_perm_eq l1 l2 :
  (∀ x y, x ∈ l1 → y ∈ l1 → key x = key y → x = y) →
  l1 ≡ₚ l2 → py_sort lt key l1 = py_sort lt key l2.
Proof using Hlt.
  intros Hinj Hp. apply sorted_perm_unique; try apply py_sort_sorted.
  - intros x y. rewrite !py_sort_perm. apply Hinj.
  - by rewrite !py_sort_perm.
Qed.
End sorting.

(** ** Subscripts *)

Lemma Ok_inj {A} (a b : A) : Ok a = Ok b → a = b.
Proof. by intros [= ->]. Qed.

Lemma py_getitem_nat {A} (l : list A) (i : nat) (x : A) :
  py_getitem l (Z.of_nat i) = Ok x ↔ l !! i = Some x.
Proof.
  unfold py_getitem.
  destruct (Z.ltb_spec (Z.of_nat i) 0); [lia|].
  destruct (Z.ltb_spec (Z.of_nat i) 0); [lia|].
  rewrite Nat2Z.id. destruct (l !! i); naive_solver.
Qed.

Lemma py_getitem_minus_one {A} (l : list A) (x : A) :
  py_getitem l (-1) = Ok x ↔ last l = Some x.
Proof.
  unfold py_getitem. change (-1 <? 0)%Z with true. cbv beta iota zeta.
  rewrite last_lookup.
  destruct l as [|y l]; simpl length; [simpl; naive_solver|].
  destruct (Z.ltb_spec (-1 + Z.of_nat (S (length l))) 0); [lia|].
  replace (Z.to_nat (-1 + Z.of_nat (S (length l)))) with (length l) by lia.
  simpl pred. destruct ((y :: l) !! length l); naive_solver.
Qed.

Lemma py_getitem_in_range {A} (l : list A) (i : Z) :
  (- Z.of_nat (length l) ≤ i < Z.of_nat (length l))%Z →
  ∃ x, py_getitem l i = Ok x.
Proof.
  intros Hi. unfold py_getitem.
  destruct (Z.ltb_spec i 0).
  - destruct (Z.ltb_spec (i + Z.of_nat (length l)) 0); [lia|].
    destruct (lookup_lt_is_Some_2 l (Z.to_nat (i + Z.of_nat (length l))))
      as [x ->]; [lia|]. by exists x.
  - destruct (Z.ltb_spec i 0); [lia|].
    destruct (lookup_lt_is_Some_2 l (Z.to_nat i)) as [x ->]; [lia|].
    by exists x.
Qed.

(** ** The walk *)

(** Every path the walk returns ends in the name looked for. *)
Lemma rglob_last (name : pystr) (d : fsnode) (parts : list pystr) :
  parts ∈ rglob name d → last parts = Some name.
Proof.
  revert parts. induction d as [|entries IH] using fsnode_ind';
    intros parts; simpl.
  - by intros ?%elem_of_nil.
  - rewrite elem_of_app, !list_elem_of_bind.
    intros [(e & He & _)|(e & He & Hin)].
    + case_bool_decide as Hn; [|by apply elem_of_nil in He].
      apply list_elem_of_singleton in He as ->. by rewrite Hn.
    + apply list_elem_of_fmap in He as (p & -> & Hp).
      rewrite Forall_forall in IH. specialize (IH e Hin p Hp).
      destruct p as [|s p]; [done|]. by rewrite last_cons, IH.
Qed.

Lemma rglob_nonempty (name : pystr) (d : fsnode) (parts : list pystr) :
  parts ∈ rglob name d → parts ≠ [].
Proof. intros Hp%rglob_last ->. done. Qed.

(** ** The model segment *)


Lemma model_idx_Some (parts : list pystr) (i : nat) :
  model_idx parts = Some i ↔ first_gpt5 parts i.
Proof.
  unfold model_idx, first_gpt5. split.
  - destruct (list_find _ parts) as [[i' m]|] eqn:Hf; [|done].
    intros [= ->]. apply list_find_Some in Hf as (Hm & Hin & Hfirst).
    split; [exists m; split; [done|by apply Is_true_true]|].
    intros j s Hj Hs. specialize (Hfirst j s Hs Hj).
    by apply negb_prop_intro, Is_true_true, negb_true_iff in Hfirst.
  - intros [(m & Hm & Hin) Hfirst].
    assert (list_find (λ part, Is_true (py_in (lit "gpt-5") part)) parts
            = Some (i, m)) as ->; [|done].
    apply list_find_Some. split_and!; [done|by apply Is_true_true|].
    intros j s Hs Hj. rewrite (Hfirst j s Hj Hs). by intros [].
Qed.

Lemma model_idx_None (parts : list pystr) :
  model_idx parts = None ↔ ∀ s, s ∈ parts → py_in (lit "gpt-5") s = false.
Proof.
  unfold model_idx. rewrite fmap_None, list_find_None, Forall_forall.
  apply forall_proper; intros s. apply forall_proper; intros _.
  destruct (py_in _ s); simpl; naive_solver.
Qed.

Lemma VIDEO_NAME_no_gpt5 : py_in (lit "gpt-5") VIDEO_NAME = false.
Proof. reflexivity. Qed.

(** The model segment of a path that ends in [sim.mp4] is not the last
    one. *)
Lemma first_gpt5_not_last (parts : list pystr) (i : nat) :
  last parts = Some VIDEO_NAME → first_gpt5 parts i → S i < length parts.
Proof.
  intros Hlast [(m & Hm & Hin) _].
  pose proof (lookup_lt_Some _ _ _ Hm) as Hlt.
  destruct (decide (S i = length parts)) as [Heq|]; [|lia].
  rewrite last_lookup, <-Heq in Hlast. simpl in Hlast.
  rewrite Hm in Hlast. injection Hlast as ->.
  by rewrite VIDEO_NAME_no_gpt5 in Hin.
Qed.

(** ** The iteration number *)

Section iteration.
Context `{U : UnicodeData}.

Lemma take_digits_digits (s : pystr) :
  Forall (λ c, is_digit c = true) (take_digits s).
Proof.
  induction s as [|c s IH]; simpl; [constructor|].
  destruct (is_digit c) eqn:Hc; by constructor.
Qed.

(** The match of [\d+] is the first maximal run of digits. *)
Lemma take_digits_run (run post : pystr) :
  Forall (λ c, is_digit c = true) run →
  (∀ c, head post = Some c → is_digit c = false) →
  take_digits (run ++ post) = run.
Proof.
  intros Hrun Hpost. induction Hrun as [|c run Hc _ IH]; simpl.
  - destruct post as [|c post]; [done|]. simpl. by rewrite (Hpost c).
  - by rewrite Hc, IH.
Qed.

Lemma ITER_RE_search_run (pre run post : pystr) :
  Forall (λ c, is_digit c = false) pre →
  run ≠ [] →
  Forall (λ c, is_digit c = true) run →
  (∀ c, head post = Some c → is_digit c = false) →
  ITER_RE_search (pre ++ run ++ post) = Some run.
Proof.
  intros Hpre Hne Hrun Hpost. induction Hpre as [|c pre Hc _ IH]; simpl.
  - destruct run as [|c run]; [done|]. simpl.
    apply Forall_cons in Hrun as [Hc Hrun].
    by rewrite Hc, take_digits_run.
  - by rewrite Hc.
Qed.

Lemma ITER_RE_search_None (s : pystr) :
  ITER_RE_search s = None ↔ Forall (λ c, is_digit c = false) s.
Proof.
  induction s as [|c s IH]; simpl; [by split; [constructor|]|].
  rewrite Forall_cons, <-IH. destruct (is_digit c).
  - split; [done|]. by intros [? _].
  - split; [done|]. by intros [_ ?].
Qed.

Lemma take_digits_split (s : pystr) :
  ∃ post, s = take_digits s ++ post ∧
          ∀ c, head post = Some c → is_digit c = false.
Proof.
  induction s as [|c s IH]; simpl.
  - exists []. by split.
  - destruct IH as (post & Hs & Hpost). destruct (is_digit c) eqn:Hc.
    + exists post. split; [simpl; by f_equal|done].
    + exists (c :: s). split; [done|]. by intros ? [= <-].
Qed.

Lemma ITER_RE_search_Some (s run : pystr) :
  ITER_RE_search s = Some run →
  ∃ pre post, s = pre ++ run ++ post ∧
    Forall (λ c, is_digit c = false) pre ∧
    run ≠ [] ∧
    Forall (λ c, is_digit c = true) run ∧
    (∀ c, head post = Some c → is_digit c = false).
Proof.
  induction s as [|c s IH]; simpl; [done|].
  destruct (is_digit c) eqn:Hc.
  - intros [= <-]. destruct (take_digits_split s) as (post & Hs & Hpost).
    exists [], post. split; [simpl; by rewrite <-Hs|].
    split; [constructor|]. split; [done|]. split; [|done].
    constructor; [done|apply take_digits_digits].
  - intros (pre & post & -> & Hpre & Hne & Hrun & Hpost)%IH.
    exists (c :: pre), post. split; [done|].
    split; [by constructor|done].
Qed.


Lemma foldl_int_step (run : pystr) (ds : list Z) (acc : Z) :
  Forall2 (λ c d, decimal c = Some d) run ds →
  foldl int_step (Some acc) run
  = Some (acc * 10 ^ Z.of_nat (length ds) + positional ds)%Z.
Proof.
  intros Hds. revert acc.
  induction Hds as [|c d run ds Hc _ IH]; intros acc; simpl.
  - f_equal. lia.
  - rewrite Hc, IH. f_equal.
    rewrite Nat2Z.inj_succ, Z.pow_succ_r by lia. lia.
Qed.

Lemma py_int_positional (run : pystr) (ds : list Z) :
  run ≠ [] →
  Forall2 (λ c d, decimal c = Some d) run ds →
  py_int run = Ok (positional ds).
Proof.
  intros Hne Hds. unfold py_int. destruct run as [|c run]; [done|].
  rewrite (foldl_int_step _ ds 0) by done. f_equal.
Qed.

Lemma digits_have_values (run : pystr) :
  Forall (λ c, is_digit c = true) run →
  ∃ ds, Forall2 (λ c d, decimal c = Some d) run ds.
Proof.
  induction 1 as [|c run Hc _ (ds & IH)]; [by exists []|].
  unfold is_digit in Hc. destruct (decimal c) as [d|] eqn:Hd; [|done].
  exists (d :: ds). by constructor.
Qed.

Lemma py_int_total (run : pystr) :
  run ≠ [] → Forall (λ c, is_digit c = true) run → ∃ n, py_int run = Ok n.
Proof.
  intros Hne (ds & Hds)%digits_have_values.
  exists (positional ds). by apply py_int_positional.
Qed.
End iteration.

(** ** The loop body of the Locator *)

Section locator.
Context `{U : UnicodeData}.

Lemma video_of_parts_inv (vdir : pystr) (parts : list pystr)
    (v : VideoRecord) :
  video_of_parts vdir parts = Ok (Some v) →
  6 ≤ length parts ∧
  ∃ i, model_idx parts = Some i ∧
    py_getitem parts 1 = Ok (scene v) ∧
    py_getitem parts (Z.of_nat i - 1) = Ok (task v) ∧
    py_getitem parts (Z.of_nat i) = Ok (model v) ∧
    py_getitem parts (Z.of_nat i + 1) = Ok (run_id v) ∧
    match ITER_RE_search (run_id v) with
    | Some g => py_int g = Ok (iter_num v)
    | None => iter_num v = 0%Z
    end ∧
    path v = lit "static/videos/highlight-videos/" ++ py_join (lit "/") parts ∧
    abs_path v = joinpath vdir (py_join (lit "/") parts) ∧
    iter_name v = run_id v.
Proof.
  unfold video_of_parts. case_bool_decide as Hlen; [done|].
  destruct (model_idx parts) as [i|]; [|done]. cbv zeta.
  destruct (py_getitem parts 1) as [sc|] eqn:Hsc; [|done].
  destruct (py_getitem parts (Z.of_nat i - 1)) as [ta|] eqn:Hta; [|done].
  destruct (py_getitem parts (Z.of_nat i)) as [mo|] eqn:Hmo; [|done].
  destruct (py_getitem parts (Z.of_nat i + 1)) as [ru|] eqn:Hru; [|done].
  cbn [mbind result_bind]. destruct (ITER_RE_search ru) as [g|] eqn:Hg.
  - destruct (py_int g) as [n|] eqn:Hn; [|done].
    cbn [mbind result_bind fmap result_fmap].
    intros [= <-]. cbn [scene task model run_id iter_name iter_num path
                        abs_path]. rewrite Hg.
    split; [lia|]. by exists i.
  - cbn [mbind result_bind]. intros [= <-].
    cbn [scene task model run_id iter_name iter_num path abs_path].
    rewrite Hg. split; [lia|]. by exists i.
Qed.

Lemma video_of_parts_skip (vdir : pystr) (parts : list pystr) :
  length parts < 6 ∨ model_idx parts = None →
  video_of_parts vdir parts = Ok None.
Proof.
  unfold video_of_parts. intros [Hlen|Hidx].
  - by rewrite bool_decide_eq_true_2.
  - case_bool_decide; [done|]. by rewrite Hidx.
Qed.

Lemma video_of_parts_found (vdir : pystr) (parts : list pystr) (i : nat) :
  last parts = Some VIDEO_NAME →
  6 ≤ length parts →
  first_gpt5 parts i →
  ∃ v, video_of_parts vdir parts = Ok (Some v).
Proof.
  intros Hlast Hlen Hi.
  pose proof (first_gpt5_not_last _ _ Hlast Hi) as Hbound.
  apply model_idx_Some in Hi.
  unfold video_of_parts. rewrite bool_decide_eq_false_2 by lia.
  rewrite Hi. cbv zeta.
  destruct (py_getitem_in_range parts 1) as [sc ->]; [lia|].
  destruct (py_getitem_in_range parts (Z.of_nat i - 1)) as [ta ->]; [lia|].
  destruct (py_getitem_in_range parts (Z.of_nat i)) as [mo ->]; [lia|].
  destruct (py_getitem_in_range parts (Z.of_nat i + 1)) as [ru ->]; [lia|].
  simpl. destruct (ITER_RE_search ru) as [g|] eqn:Hg; simpl; [|by eexists].
  apply ITER_RE_search_Some in Hg as (_ & _ & _ & _ & Hne & Hrun & _).
  destruct (py_int_total g Hne Hrun) as [n ->]. simpl. by eexists.
Qed.

(** On the paths of the walk the body never raises. *)
Lemma video_of_parts_total (vdir : pystr) (parts : list pystr) :
  last parts = Some VIDEO_NAME → ∃ r, video_of_parts vdir parts = Ok r.
Proof.
  intros Hlast. destruct (decide (length parts < 6)) as [Hlen|Hlen].
  { exists None. apply video_of_parts_skip. by left. }
  destruct (model_idx parts) as [i|] eqn:Hi.
  - apply model_idx_Some in Hi.
    destruct (video_of_parts_found vdir parts i) as [v Hv]; [done|lia|done|].
    by exists (Some v).
  - exists None. apply video_of_parts_skip. by right.
Qed.


Lemma scan_ok (vdir : pystr) (paths : list (list pystr))
    (res : list VideoRecord) :
  Forall (λ parts, last parts = Some VIDEO_NAME) paths →
  scan vdir paths res = Ok (res ++ located vdir paths).
Proof.
  intros Hpaths. revert res.
  induction Hpaths as [|parts paths Hp _ IH]; intros res; simpl.
  - by rewrite app_nil_r.
  - destruct (video_of_parts_total vdir parts Hp) as [r Hr].
    unfold located. simpl. rewrite Hr. simpl. rewrite IH.
    destruct r as [v|]; [|done]. by rewrite <-app_assoc.
Qed.

Lemma elem_of_located (vdir : pystr) (paths : list (list pystr))
    (v : VideoRecord) :
  v ∈ located vdir paths ↔
  ∃ parts, parts ∈ paths ∧ video_of_parts vdir parts = Ok (Some v).
Proof.
  unfold located. rewrite list_elem_of_omap.
  split; intros (parts & Hin & Hv); exists parts; split; try done.
  - by destruct (video_of_parts vdir parts) as [[?|]|]; simplify_eq.
  - by rewrite Hv.
Qed.

Lemma find_videos_Some (w : world) (tree : fsnode) :
  videos w = Some tree →
  find_videos w =
    ([Stdout (lit "Searching for videos in " ++ videos_dir (base w))],
     Ok (located (videos_dir (base w)) (rglob VIDEO_NAME tree))).
Proof.
  intros Hw. unfold find_videos. rewrite Hw.
  rewrite scan_ok; [done|].
  apply Forall_forall. intros parts. apply rglob_last.
Qed.

Lemma find_videos_None (w : world) :
  videos w = None →
  find_videos w =
    ([Stdout (lit "Videos directory not found at " ++ videos_dir (base w))],
     Ok []).
Proof. intros Hw. unfold find_videos. by rewrite Hw. Qed.

Lemma find_videos_total (w : world) : ∃ recs, (find_videos w).2 = Ok recs.
Proof.
  destruct (videos w) as [tree|] eqn:Hw.
  - rewrite (find_videos_Some w tree Hw). by eexists.
  - rewrite (find_videos_None w Hw). by eexists.
Qed.
End locator.

(** ** Claims about the Locator *)

(** C1. For a path of the walk with at least six segments whose first
    segment containing [gpt-5] has index [i], the Locator returns a record
    with [scene = segments[1]], [task = segments[i-1]],
    [model = segments[i]] and [run_id = segments[i+1]]; a path with fewer
    than six segments or without such a segment gives no record, and the
    result holds the records of the other paths and nothing else. *)
Theorem C1_locator_fields `{U : UnicodeData} (w : world) (tree : fsnode)
    (parts : list pystr) :
  videos w = Some tree →
  parts ∈ rglob VIDEO_NAME tree →
  ∃ recs, (find_videos w).2 = Ok recs ∧
    (∀ i, 6 ≤ length parts → first_gpt5 parts i →
       ∃ v, video_of_parts (videos_dir (base w)) parts = Ok (Some v) ∧
            v ∈ recs ∧
            parts !! 1 = Some (scene v) ∧
            py_getitem parts (Z.of_nat i - 1) = Ok (task v) ∧
            (0 < i → parts !! (i - 1) = Some (task v)) ∧
            parts !! i = Some (model v) ∧
            parts !! (i + 1) = Some (run_id v)) ∧
    ((length parts < 6 ∨ ∀ s, s ∈ parts → py_in (lit "gpt-5") s = false) →
       video_of_parts (videos_dir (base w)) parts = Ok None) ∧
    (∀ v, v ∈ recs ↔
          ∃ p, p ∈ rglob VIDEO_NAME tree ∧
               video_of_parts (videos_dir (base w)) p = Ok (Some v)).
Proof.
  intros Hw Hparts. rewrite (find_videos_Some w tree Hw).
  eexists. split; [done|]. split_and!.
  - intros i Hlen Hi.
    destruct (video_of_parts_found (videos_dir (base w)) parts i)
      as [v Hv]; [by eapply rglob_last|done|done|].
    exists v. split; [done|]. split; [apply elem_of_located; eauto|].
    apply video_of_parts_inv in Hv
      as (_ & i' & Hi' & Hsc & Hta & Hmo & Hru & _).
    apply model_idx_Some in Hi. rewrite Hi in Hi'. injection Hi' as <-.
    split; [by apply (py_getitem_nat parts 1)|].
    split; [done|]. split.
    + intros Hpos. apply py_getitem_nat.
      by replace (Z.of_nat (i - 1)) with (Z.of_nat i - 1)%Z by lia.
    + split; [by apply py_getitem_nat|].
      apply py_getitem_nat.
      by replace (Z.of_nat (i + 1)) with (Z.of_nat i + 1)%Z by lia.
  - intros Hskip. apply video_of_parts_skip.
    destruct Hskip as [?|Hno]; [by left|right]. by apply model_idx_None.
  - intros v. apply elem_of_located.
Qed.

Lemma C1_locator_fields_witness :
  ∃ v, video_of_parts (U := sample_unicode) (videos_dir (lit "/srv/site"))
         sample_parts = Ok (Some v) ∧
       scene v = lit "kitchen" ∧ task v = lit "stack" ∧
       model v = lit "gpt-5-2025-08-07" ∧ run_id v = lit "run_03".
Proof.
  destruct (C1_locator_fields (U := sample_unicode) sample_world
              (chain sample_parts) sample_parts eq_refl)
    as (recs & _ & Hfields & _).
  { apply (bool_decide_unpack _). by vm_compute. }
  destruct (Hfields 4) as (v & Hv & _ & Hsc & _ & Hta & Hmo & Hru).
  { simpl. lia. }
  { apply model_idx_Some. by vm_compute. }
  exists v. split; [done|].
  specialize (Hta ltac:(lia)).
  split_and!; apply (inj Some);
    [rewrite <-Hsc|rewrite <-Hta|rewrite <-Hmo|rewrite <-Hru]; reflexivity.
Defined.

(** C9. On a path of the walk the segment after the model segment
    exists: the last segment is [sim.mp4], which does not contain
    [gpt-5], so the index [i] of the first segment with [gpt-5] satisfies
    [i + 1 < len(segments)], the subscript [segments[i+1]] returns, and
    [find_videos] returns a list without raising. *)
Theorem C9_run_id_in_bounds `{U : UnicodeData} (w : world) (tree : fsnode)
    (parts : list pystr) (i : nat) :
  videos w = Some tree →
  parts ∈ rglob VIDEO_NAME tree →
  first_gpt5 parts i →
  last parts = Some VIDEO_NAME ∧
  py_in (lit "gpt-5") VIDEO_NAME = false ∧
  i + 1 < length parts ∧
  (∃ s, py_getitem parts (Z.of_nat i + 1) = Ok s) ∧
  (∃ r, video_of_parts (videos_dir (base w)) parts = Ok r) ∧
  (∃ recs, (find_videos w).2 = Ok recs).
Proof.
  intros Hw Hparts Hi.
  pose proof (rglob_last _ _ _ Hparts) as Hlast.
  pose proof (first_gpt5_not_last _ _ Hlast Hi) as Hbound.
  split; [done|]. split; [done|]. split; [lia|]. split.
  { apply py_getitem_in_range. lia. }
  split; [by apply video_of_parts_total|apply find_videos_total].
Qed.

Lemma C9_run_id_in_bounds_witness :
  4 + 1 < length sample_parts ∧
  ∃ s, py_getitem sample_parts (Z.of_nat 4 + 1) = Ok s.
Proof.
  destruct (C9_run_id_in_bounds (U := sample_unicode) sample_world
              (chain sample_parts) sample_parts 4 eq_refl)
    as (_ & _ & Hbound & Hget & _).
  { apply (bool_decide_unpack _). by vm_compute. }
  { apply model_idx_Some. by vm_compute. }
  by split.
Defined.



Lemma sample_unicode_ascii_digits : @ascii_digits sample_unicode.
Proof.
  intros d Hd. simpl. unfold sample_decimal, is_ascii_digit.
  destruct (N.leb_spec 48 (48 + d)); [|lia].
  destruct (N.leb_spec (48 + d) 57); [|lia].
  simpl. f_equal. lia.
Qed.

Lemma ascii_digit_is_digit `{U : UnicodeData} (c : N) :
  ascii_digits → is_ascii_digit c = true → is_digit c = true.
Proof.
  intros Hascii Hc. unfold is_ascii_digit in Hc.
  apply andb_true_iff in Hc as [Hlo Hhi].
  apply N.leb_le in Hlo, Hhi.
  unfold is_digit. replace c with (48 + (c - 48))%N by lia.
  rewrite Hascii; [done|lia].
Qed.

Lemma values_are_digits `{U : UnicodeData} (run : pystr) (ds : list Z) :
  Forall2 (λ c d, decimal c = Some d) run ds →
  Forall (λ c, is_digit c = true) run.
Proof.
  induction 1 as [|c d run ds Hc _ IH]; constructor; [|done].
  unfold is_digit. by rewrite Hc.
Qed.

(** Where every decimal digit of a string is an ASCII digit, [\d+] finds
    the first run of ASCII digits. *)
Lemma take_digits_ascii `{U : UnicodeData} (s : pystr) :
  (∀ c, c ∈ s → is_digit c = is_ascii_digit c) →
  take_digits s = take_ascii_digits s.
Proof.
  induction s as [|c s IH]; intros Hs; [done|]. simpl.
  rewrite (Hs c) by left. rewrite IH; [done|].
  intros c' Hc'. apply Hs. by right.
Qed.

Lemma ITER_RE_search_ascii `{U : UnicodeData} (s : pystr) :
  (∀ c, c ∈ s → is_digit c = is_ascii_digit c) →
  ITER_RE_search s = match spec_first_ascii_run s with
                     | [] => None
                     | c :: run => Some (c :: run)
                     end.
Proof.
  induction s as [|c s IH]; intros Hs; [done|]. simpl.
  rewrite (Hs c) by left. destruct (is_ascii_digit c).
  - rewrite take_digits_ascii; [done|]. intros c' Hc'. apply Hs. by right.
  - apply IH. intros c' Hc'. apply Hs. by right.
Qed.

Lemma take_ascii_digits_Forall (s : pystr) :
  Forall (λ c, is_ascii_digit c = true) (take_ascii_digits s).
Proof.
  induction s as [|c s IH]; simpl; [constructor|].
  destruct (is_ascii_digit c) eqn:Hc; by constructor.
Qed.

Lemma spec_first_ascii_run_Forall (s : pystr) :
  Forall (λ c, is_ascii_digit c = true) (spec_first_ascii_run s).
Proof.
  induction s as [|c s IH]; simpl; [constructor|].
  destruct (is_ascii_digit c) eqn:Hc; [|done].
  constructor; [done|apply take_ascii_digits_Forall].
Qed.

Lemma ascii_values `{U : UnicodeData} (run : pystr) :
  ascii_digits →
  Forall (λ c, is_ascii_digit c = true) run →
  Forall2 (λ c d, decimal c = Some d) run ((λ c, Z.of_N c - 48)%Z <$> run).
Proof.
  intros Hascii. induction 1 as [|c run Hc _ IH]; [constructor|].
  rewrite fmap_cons. constructor; [|done].
  unfold is_ascii_digit in Hc. apply andb_true_iff in Hc as [Hlo Hhi].
  apply N.leb_le in Hlo, Hhi.
  replace c with (48 + (c - 48))%N at 1 by lia.
  rewrite Hascii by lia. f_equal. lia.
Qed.

(** C3, as the code has it.  The pattern [\d] and [int] read the decimal
    digits of every script.  The run identifier made of U+0663, U+0664,
    [5], [x] and [9] has the first run of ASCII digits [5], but gives 345;
    the run identifier [run_] followed by U+0663 and U+0664 has no ASCII
    digit, but gives 34. *)
Lemma C3_non_ascii_digits :
  (∃ v, video_of_parts (U := sample_unicode) (lit "/v")
          [lit "set1"; lit "kitchen"; lit "runs"; lit "stack"; lit "gpt-5";
           [1635; 1636; 53; 120; 57]%N; lit "sim.mp4"] = Ok (Some v) ∧
        run_id v = [1635; 1636; 53; 120; 57]%N ∧
        spec_first_ascii_run (run_id v) = lit "5" ∧
        spec_iter_number (run_id v) = 5%Z ∧
        iter_num v = 345%Z) ∧
  (∃ v, video_of_parts (U := sample_unicode) (lit "/v")
          [lit "set1"; lit "kitchen"; lit "runs"; lit "stack"; lit "gpt-5";
           lit "run_" ++ [1635; 1636]%N; lit "sim.mp4"] = Ok (Some v) ∧
        run_id v = lit "run_" ++ [1635; 1636]%N ∧
        Forall (λ c, is_ascii_digit c = false) (run_id v) ∧
        spec_iter_number (run_id v) = 0%Z ∧
        iter_num v = 34%Z).
Proof.
  split.
  - eexists. split; [vm_compute; reflexivity|].
    split_and!; vm_compute; reflexivity.
  - eexists. split; [vm_compute; reflexivity|].
    split_and!; try (vm_compute; reflexivity).
    apply Forall_forall. intros c Hc. vm_compute in Hc.
    repeat (apply elem_of_cons in Hc as [->|Hc]; [reflexivity|]).
    by apply elem_of_nil in Hc.
Qed.

(** C3, amended.  A digit is what [\d] matches: a decimal digit of any
    script, read with its decimal value.  The iteration number of a
    record is the value of the first maximal run of such digits of its
    run identifier, and [0] when the run identifier has none; a run
    identifier with an ASCII digit has such a run.  When every decimal
    digit of the run identifier is an ASCII digit, the iteration number
    is the value of the first maximal run of ASCII digits, [0] when
    there is none. *)
Theorem C3_iter_number `{U : UnicodeData} (vdir : pystr) (parts : list pystr)
    (v : VideoRecord) :
  video_of_parts vdir parts = Ok (Some v) →
  (∀ pre run post ds,
     run_id v = pre ++ run ++ post →
     Forall (λ c, is_digit c = false) pre →
     run ≠ [] →
     Forall2 (λ c d, decimal c = Some d) run ds →
     (∀ c, head post = Some c → is_digit c = false) →
     iter_num v = positional ds) ∧
  (Forall (λ c, is_digit c = false) (run_id v) → iter_num v = 0%Z) ∧
  (ascii_digits →
   ∀ c, c ∈ run_id v → is_ascii_digit c = true →
     ∃ pre run post ds,
       run_id v = pre ++ run ++ post ∧
       Forall (λ c, is_digit c = false) pre ∧
       run ≠ [] ∧
       Forall2 (λ c d, decimal c = Some d) run ds ∧
       (∀ c, head post = Some c → is_digit c = false) ∧
       iter_num v = positional ds) ∧
  (ascii_digits →
   (∀ c, c ∈ run_id v → is_digit c = true → is_ascii_digit c = true) →
   iter_num v = spec_iter_number (run_id v)).
Proof.
  intros (_ & i & _ & _ & _ & _ & _ & Hiter & _)%video_of_parts_inv.
  split_and!.
  - intros pre run post ds Hsplit Hpre Hne Hds Hpost.
    rewrite Hsplit, (ITER_RE_search_run pre run post) in Hiter;
      [|done|done|by eapply values_are_digits|done].
    rewrite (py_int_positional run ds Hne Hds) in Hiter. congruence.
  - intros Hnone%ITER_RE_search_None. by rewrite Hnone in Hiter.
  - intros Hascii c Hc Hdigit.
    destruct (ITER_RE_search (run_id v)) as [run|] eqn:Hrun.
    + destruct (ITER_RE_search_Some _ _ Hrun)
        as (pre & post & Hsplit & Hpre & Hne & Hdigits & Hpost).
      destruct (digits_have_values run Hdigits) as [ds Hds].
      exists pre, run, post, ds. split_and!; try done.
      rewrite (py_int_positional run ds Hne Hds) in Hiter. congruence.
    + apply ITER_RE_search_None in Hrun.
      rewrite Forall_forall in Hrun. specialize (Hrun c Hc).
      by rewrite (ascii_digit_is_digit c Hascii Hdigit) in Hrun.
  - intros Hascii Honly. unfold spec_iter_number.
    pose proof (spec_first_ascii_run_Forall (run_id v)) as Hrun.
    rewrite ITER_RE_search_ascii in Hiter.
    + destruct (spec_first_ascii_run (run_id v)) as [|c run]; [done|].
      rewrite (py_int_positional (c :: run) _ ltac:(done)
                 (ascii_values _ Hascii Hrun)) in Hiter.
      congruence.
    + intros c Hc. destruct (is_digit c) eqn:Hd.
      * symmetry. by apply Honly.
      * destruct (is_ascii_digit c) eqn:Ha; [|done].
        by rewrite (ascii_digit_is_digit c Hascii Ha) in Hd.
Qed.

Lemma C3_iter_number_witness :
  ∃ v, video_of_parts (U := sample_unicode) (videos_dir (lit "/srv/site"))
         sample_parts = Ok (Some v) ∧
       run_id v = lit "run_03" ∧ iter_num v = 3%Z ∧
       iter_num v = spec_iter_number (run_id v).
Proof.
  destruct (video_of_parts (U := sample_unicode) (videos_dir (lit "/srv/site"))
              sample_parts) as [[v|]|e] eqn:Hv;
    [|vm_compute in Hv; discriminate Hv..].
  assert (run_id v = lit "run_03") as Hrun.
  { vm_compute in Hv. apply Ok_inj in Hv.
    injection Hv as <-. vm_compute. reflexivity. }
  destruct (C3_iter_number (U := sample_unicode) _ _ v Hv)
    as (Hfirst & _ & _ & Hspec).
  exists v. split_and!; [done|done| |].
  - apply (Hfirst (lit "run_") (lit "03") [] [0; 3]%Z).
    + by rewrite Hrun.
    + apply Forall_forall. intros c Hc. vm_compute in Hc.
      repeat (apply elem_of_cons in Hc as [->|Hc]; [reflexivity|]).
      by apply elem_of_nil in Hc.
    + discriminate.
    + repeat constructor.
    + intros c Hc. discriminate Hc.
  - apply Hspec; [apply sample_unicode_ascii_digits|].
    rewrite Hrun. intros c Hc Hd. vm_compute in Hc.
    repeat (apply elem_of_cons in Hc as [->|Hc];
            [first [reflexivity|vm_compute in Hd; discriminate Hd]|]).
    by apply elem_of_nil in Hc.
Defined.

(** A digit need not be ASCII: with U+0663 and U+0664 in the table, the
    run identifier made of U+0663, U+0664, [5], [x] and [9] gives 345, as
    [int] reads digits of mixed scripts. *)
Example iter_num_arabic_indic :
  fmap (M := option) iter_num
    <$> video_of_parts (U := sample_unicode) (lit "/v")
          [lit "set1"; lit "kitchen"; lit "runs"; lit "stack"; lit "gpt-5";
           [1635; 1636; 53; 120; 57]%N; lit "sim.mp4"]
  = Ok (Some 345%Z).
Proof. by vm_compute. Qed.

(** ** The Aggregator *)

Lemma collect_lookup (videos : list VideoRecord)
    (grouped : gmap (pystr * pystr) (list VideoRecord)) (k : pystr * pystr) :
  foldl append_video grouped videos !! k =
  match members k videos with
  | [] => grouped !! k
  | ms => Some (default [] (grouped !! k) ++ ms)
  end.
Proof.
  revert grouped. unfold members.
  induction videos as [|v videos IH]; intros grouped; [done|].
  simpl. rewrite IH, filter_cons. unfold append_video.
  destruct (decide (group_key v = k)) as [<-|Hne].
  - rewrite lookup_insert_eq. simpl.
    destruct (filter _ videos) as [|m ms]; [done|].
    by rewrite <-app_assoc.
  - by rewrite lookup_insert_ne.
Qed.

(** The group of a key is the sorted and trimmed list of its members,
    and a key has a group exactly when it has a member. *)
Lemma group_by_task_model_lookup (videos : list VideoRecord)
    (k : pystr * pystr) :
  group_by_task_model videos !! k =
  match members k videos with
  | [] => None
  | ms => Some (sort_and_trim ms)
  end.
Proof.
  unfold group_by_task_model. rewrite lookup_fmap, collect_lookup.
  rewrite lookup_empty. by destruct (members k videos).
Qed.

Lemma StronglySorted_lookup {A} (R : relation A) (l : list A) (i j : nat)
    (x y : A) :
  StronglySorted R l → i < j → l !! i = Some x → l !! j = Some y → R x y.
Proof.
  intros Hs. revert i j. induction Hs as [|a l Hs IH Ha]; intros i j Hij.
  - by rewrite lookup_nil.
  - destruct j as [|j]; [lia|]. destruct i as [|i]; simpl.
    + intros [= ->] Hy. rewrite Forall_forall in Ha.
      apply Ha. by eapply list_elem_of_lookup_2.
    + apply IH. lia.
Qed.

Lemma StronglySorted_take {A} (R : relation A) (l : list A) (n : nat) :
  StronglySorted R l → StronglySorted R (take n l).
Proof.
  intros Hs. rewrite <-(take_drop n l) in Hs.
  by apply StronglySorted_app in Hs as (_ & Hs & _).
Qed.

Lemma sorted_ascending (g : list VideoRecord) :
  StronglySorted (key_le int_str_lt sort_key) g → ascending g.
Proof.
  intros Hs i j x y Hij Hx Hy.
  pose proof (StronglySorted_lookup _ _ _ _ _ _ Hs Hij Hx Hy) as Hle.
  unfold key_le, int_str_lt, sort_key in Hle. simpl in Hle.
  case_bool_decide as Heq.
  - right. by split.
  - left. apply Z.ltb_ge in Hle. lia.
Qed.

Lemma sort_and_trim_sorted (ms : list VideoRecord) :
  StronglySorted (key_le int_str_lt sort_key) (sort_and_trim ms).
Proof.
  unfold sort_and_trim. pose proof int_str_lt_strict_total as Hlt.
  case_bool_decide.
  - apply StronglySorted_take. by apply py_sort_sorted.
  - by apply py_sort_sorted.
Qed.

(** C2. A group of the Aggregator's result is the sorted list of the
    records of its key, cut to its first five when that list has exactly
    six records and left whole for every other length, lengths above six
    included. *)
Theorem C2_six_to_five (videos : list VideoRecord) (k : pystr * pystr)
    (g : list VideoRecord) :
  group_by_task_model videos !! k = Some g →
  sorted_members k videos ≡ₚ members k videos ∧
  ascending (sorted_members k videos) ∧
  (length (sorted_members k videos) = 6 →
     g = take 5 (sorted_members k videos) ∧ length g = 5) ∧
  (length (sorted_members k videos) ≠ 6 → g = sorted_members k videos).
Proof.
  rewrite group_by_task_model_lookup. unfold sorted_members.
  pose proof int_str_lt_strict_total as Hlt.
  intros Hg. split; [apply py_sort_perm|].
  split; [by apply sorted_ascending, py_sort_sorted|].
  assert (g = sort_and_trim (members k videos)) as ->.
  { destruct (members k videos); by simplify_eq. }
  unfold sort_and_trim. split; intros Hlen.
  - rewrite bool_decide_eq_true_2 by done. split; [done|].
    rewrite length_take. lia.
  - by rewrite bool_decide_eq_false_2.
Qed.

Lemma C2_six_to_five_witness :
  ∃ g, group_by_task_model six_runs
         !! (lit "taskX", lit "gpt-5-2025-08-07") = Some g ∧
       g = run_video <$> [0; 1; 2; 3; 4].
Proof.
  eexists. split; [by vm_compute|].
  destruct (C2_six_to_five six_runs (lit "taskX", lit "gpt-5-2025-08-07")
              (run_video <$> [0; 1; 2; 3; 4])) as (_ & _ & Hsix & _).
  { by vm_compute. }
  destruct Hsix as [-> _]; by vm_compute.
Defined.

Lemma members_perm (k : pystr * pystr) (l1 l2 : list VideoRecord) :
  l1 ≡ₚ l2 → members k l1 ≡ₚ members k l2.
Proof. intros Hp. unfold members. by rewrite Hp. Qed.

Lemma sort_and_trim_perm (ms1 ms2 : list VideoRecord) :
  ms1 ≡ₚ ms2 →
  (∀ x y, x ∈ ms1 → y ∈ ms1 → sort_key x = sort_key y → x = y) →
  sort_and_trim ms1 = sort_and_trim ms2.
Proof.
  intros Hp Hkeys. unfold sort_and_trim.
  by rewrite (py_sort_perm_eq int_str_lt sort_key int_str_lt_strict_total
                ms1 ms2 Hkeys Hp).
Qed.

(** C7, as the code has it.  The sort is stable, so two different records
    of one group with the same iteration number and path come out in the
    order they came in: swapping them in the input swaps them in the
    group. *)
Lemma C7_twins_order_matters :
  [twin_a; twin_b] ≡ₚ [twin_b; twin_a] ∧
  group_by_task_model [twin_a; twin_b] !! (lit "taskX", lit "gpt-5")
    = Some [twin_a; twin_b] ∧
  group_by_task_model [twin_b; twin_a] !! (lit "taskX", lit "gpt-5")
    = Some [twin_b; twin_a] ∧
  group_by_task_model [twin_a; twin_b] ≠ group_by_task_model [twin_b; twin_a].
Proof.
  split; [apply perm_swap|].
  assert (group_by_task_model [twin_a; twin_b] !! (lit "taskX", lit "gpt-5")
          = Some [twin_a; twin_b]) as Hab by (vm_compute; reflexivity).
  assert (group_by_task_model [twin_b; twin_a] !! (lit "taskX", lit "gpt-5")
          = Some [twin_b; twin_a]) as Hba by (vm_compute; reflexivity).
  split; [done|]. split; [done|].
  intros Heq. rewrite Heq, Hba in Hab. vm_compute in Hab. discriminate Hab.
Qed.

Lemma group_by_task_model_perm (l1 l2 : list VideoRecord) :
  l1 ≡ₚ l2 → distinct_keys l1 →
  group_by_task_model l1 = group_by_task_model l2.
Proof.
  intros Hp Hkeys. apply map_eq. intros k.
  rewrite !group_by_task_model_lookup.
  pose proof (members_perm k _ _ Hp) as Hm.
  assert (sort_and_trim (members k l1) = sort_and_trim (members k l2))
    as Hsort.
  { apply sort_and_trim_perm; [done|].
    intros x y Hx Hy. unfold members in Hx, Hy.
    apply list_elem_of_filter in Hx as [Hkx Hx].
    apply list_elem_of_filter in Hy as [Hky Hy].
    apply Hkeys; congruence. }
  destruct (members k l1) as [|m1 ms1], (members k l2) as [|m2 ms2].
  - done.
  - by apply Permutation_nil_cons in Hm.
  - symmetry in Hm. by apply Permutation_nil_cons in Hm.
  - by rewrite Hsort.
Qed.

Lemma groups_ascending (videos : list VideoRecord) (k : pystr * pystr)
    (g : list VideoRecord) :
  group_by_task_model videos !! k = Some g → ascending g.
Proof.
  rewrite group_by_task_model_lookup.
  destruct (members k videos) as [|m ms] eqn:Hm; [done|].
  intros [= <-]. apply sorted_ascending, sort_and_trim_sorted.
Qed.

(** C7, amended.  Whatever the input, each group is ascending by
    [(iter_num, path)], the path deciding between records of one
    iteration number; and when no two different records of one
    [(task, model)] group share both the iteration number and the path,
    the Aggregator gives the same grouping for every order of the
    input. *)
Theorem C7_order_independent (l1 l2 : list VideoRecord) :
  (∀ k g, group_by_task_model l1 !! k = Some g → ascending g) ∧
  (l1 ≡ₚ l2 → distinct_keys l1 →
   group_by_task_model l1 = group_by_task_model l2).
Proof.
  split; [intros k g; apply groups_ascending|].
  intros Hp Hkeys. by apply group_by_task_model_perm.
Qed.

Lemma six_runs_distinct_keys : distinct_keys six_runs.
Proof.
  intros x y Hx Hy. unfold six_runs in Hx, Hy. simpl in Hx, Hy.
  repeat (apply elem_of_cons in Hx as [->|Hx]);
    try (by apply elem_of_nil in Hx);
    repeat (apply elem_of_cons in Hy as [->|Hy]);
    try (by apply elem_of_nil in Hy);
    intros _ Hk; try done; vm_compute in Hk; discriminate Hk.
Qed.

Lemma C7_order_independent_witness :
  group_by_task_model six_runs = group_by_task_model (reverse six_runs) ∧
  ascending [twin_a; twin_b] ∧ ascending [twin_b; twin_a].
Proof.
  split_and!.
  - apply (C7_order_independent six_runs (reverse six_runs)).
    + symmetry. apply reverse_Permutation.
    + apply six_runs_distinct_keys.
  - apply (proj1 (C7_order_independent [twin_a; twin_b] [])
             (lit "taskX", lit "gpt-5")).
    vm_compute. reflexivity.
  - apply (proj1 (C7_order_independent [twin_b; twin_a] [])
             (lit "taskX", lit "gpt-5")).
    vm_compute. reflexivity.
Defined.

(** ** The driver without videos *)

Lemma find_videos_message `{U : UnicodeData} (w : world) :
  (find_videos w).1 = [Stdout (locator_message w)].
Proof.
  unfold locator_message. destruct (videos w) as [tree|] eqn:Hw.
  - by rewrite (find_videos_Some w tree Hw).
  - by rewrite (find_videos_None w Hw).
Qed.

(** C5, as the code has it.  Without the videos directory the run prints
    two lines, the Locator's message and then the comment: the output is
    not the comment alone. *)
Lemma C5_output_has_locator_line :
  main (U := sample_unicode) absent_world None =
    ([Stdout (lit "Videos directory not found at "
              ++ lit "/srv/site/static/videos/highlight-videos");
      Stdout (lit "<!-- No videos found -->")],
     Ok tt) ∧
  main (U := sample_unicode) absent_world None
    ≠ ([Stdout (lit "<!-- No videos found -->")], Ok tt).
Proof.
  assert (main (U := sample_unicode) absent_world None =
    ([Stdout (lit "Videos directory not found at "
              ++ lit "/srv/site/static/videos/highlight-videos");
      Stdout (lit "<!-- No videos found -->")],
     Ok tt)) as Hmain by (vm_compute; reflexivity).
  split; [done|]. rewrite Hmain. intros Heq. discriminate Heq.
Qed.

(** C5, amended.  When the Locator finds no videos, standard output
    holds the Locator's message line followed by the line
    [<!-- No videos found -->], no file is written whatever [--out] says,
    and [main] returns normally; nothing of the grouping or the rendering
    reaches the output. *)
Theorem C5_no_videos_output `{U : UnicodeData} (w : world)
    (out : option pystr) :
  (find_videos w).2 = Ok [] →
  main w out =
    ([Stdout (locator_message w); Stdout no_videos_comment], Ok tt).
Proof.
  intros Hres. pose proof (find_videos_message w) as Hmsg.
  unfold main. destruct (find_videos w) as [effs res].
  simpl in Hres, Hmsg. by subst.
Qed.

Lemma C5_no_videos_output_witness :
  main (U := sample_unicode) empty_world (Some (lit "grid.html")) =
    ([Stdout (locator_message empty_world); Stdout no_videos_comment], Ok tt).
Proof.
  apply (C5_no_videos_output (U := sample_unicode)). by vm_compute.
Defined.

(** An absent directory is one way of finding no videos. *)
Lemma find_videos_absent `{U : UnicodeData} (w : world) :
  videos w = None → (find_videos w).2 = Ok [].
Proof. intros Hw. by rewrite (find_videos_None w Hw). Qed.

(** ** The Renderer on an empty and on a non-empty grouping *)

Lemma group_by_task_model_nonempty (videos : list VideoRecord) :
  videos ≠ [] → group_by_task_model videos ≠ ∅.
Proof.
  destruct videos as [|v videos]; [done|]. intros _ Hempty.
  pose proof (group_by_task_model_lookup (v :: videos) (group_key v)) as Hk.
  rewrite Hempty, lookup_empty in Hk. unfold members in Hk.
  rewrite filter_cons, decide_True in Hk by done. done.
Qed.

Lemma sorted_str_perm (l : list pystr) : sorted_str l ≡ₚ l.
Proof. apply py_sort_perm. Qed.

Lemma tasks_of_elem (grouped : gmap (pystr * pystr) (list VideoRecord))
    (t : pystr) :
  t ∈ tasks_of grouped ↔ ∃ m, is_Some (grouped !! (t, m)).
Proof.
  unfold tasks_of. rewrite sorted_str_perm, elem_of_elements, elem_of_map.
  split.
  - intros ([t' m] & -> & Hk%elem_of_dom). by exists m.
  - intros (m & Hk). exists (t, m). split; [done|]. by apply elem_of_dom.
Qed.

Lemma tasks_of_nonempty (grouped : gmap (pystr * pystr) (list VideoRecord)) :
  grouped ≠ ∅ → tasks_of grouped ≠ [].
Proof.
  intros ([t m] & vids & Hk)%map_choose Hnil.
  assert (t ∈ tasks_of grouped) as Ht by (apply tasks_of_elem; eauto).
  rewrite Hnil in Ht. by apply elem_of_nil in Ht.
Qed.

Lemma tasks_of_empty : tasks_of ∅ = [].
Proof.
  destruct (tasks_of ∅) as [|t ts] eqn:Ht; [done|].
  assert (t ∈ tasks_of ∅) as Hin by (rewrite Ht; left).
  apply tasks_of_elem in Hin as (m & Hm).
  rewrite lookup_empty in Hm. by destruct Hm.
Qed.

(** What [render_lines] returns when there is a first task. *)
Lemma render_lines_ok (grouped : gmap (pystr * pystr) (list VideoRecord))
    (t : pystr) (ts : list pystr) :
  tasks_of grouped = t :: ts →
  render_lines grouped =
    Ok (html_head
        ++ [ lit "<div class=" ++ q "section" ++ lit ">";
             lit "  <div class=" ++ q "container is-max-desktop" ++ lit ">" ]
        ++ task_selector (t :: ts)
        ++ model_selector (models_of grouped t)
        ++ [ lit "  </div>";
             lit "</div>" ]
        ++ (sorted_items grouped ≫= render_section)
        ++ script (models_by_task_of grouped)
        ++ [ lit "</body>";
             lit "</html>" ]).
Proof.
  intros Ht. unfold render_lines, models_by_task_of. rewrite Ht.
  change (py_getitem (t :: ts) 0) with (Ok (A := pystr) t).
  cbn [mbind result_bind fmap list_fmap dict_get].
  by rewrite bool_decide_eq_true_2.
Qed.

Lemma bind_Ok {A B} (effs : list effect) (a : A) (f : A → Py B) :
  (effs, Ok a) ≫= f = (effs ++ (f a).1, (f a).2).
Proof. unfold mbind, py_bind. by destruct (f a). Qed.

Lemma main_total `{U : UnicodeData} (w : world) (out : option pystr) :
  ∃ effs, main w out = (effs, Ok tt).
Proof.
  unfold main. destruct (find_videos_total w) as [recs Hrecs].
  destruct (find_videos w) as [effs res]. simpl in Hrecs. subst res.
  destruct recs as [|v recs]; [by eexists|].
  destruct (tasks_of (group_by_task_model (v :: recs))) as [|t ts] eqn:Ht.
  { exfalso. eapply tasks_of_nonempty; [|exact Ht].
    by apply group_by_task_model_nonempty. }
  rewrite bind_Ok. unfold render_html. rewrite (render_lines_ok _ t ts Ht).
  cbn [fmap result_fmap]. unfold lift. rewrite bind_Ok.
  destruct out as [name|]; [|by eexists].
  case_bool_decide; [by eexists|].
  unfold write_file. rewrite bind_Ok. by eexists.
Qed.

(** C4, as the code has it.  On the empty grouping the list of tasks is
    empty and [tasks[0]] raises [IndexError]: no document is returned. *)
Lemma C4_empty_grouping_raises :
  tasks_of ∅ = [] ∧ render_html ∅ = Raise IndexError.
Proof.
  split; [apply tasks_of_empty|].
  unfold render_html, render_lines. by rewrite tasks_of_empty.
Qed.

(** C4, amended.  On every non-empty grouping [render_html] returns a
    complete document, from the head to the closing tags; the empty
    grouping, on which it raises, never reaches it, because a non-empty
    list of records gives a non-empty grouping and [main] returns before
    the grouping when the list is empty: [main] never raises. *)
Theorem C4_render_needs_a_group
    (grouped : gmap (pystr * pystr) (list VideoRecord)) :
  grouped ≠ ∅ →
  (∃ out, render_lines grouped = Ok out ∧
          render_html grouped = Ok (py_join newline out) ∧
          html_head `prefix_of` out ∧
          [lit "</body>"; lit "</html>"] `suffix_of` out) ∧
  (∀ videos, videos ≠ [] → group_by_task_model videos ≠ ∅) ∧
  (∀ (U : UnicodeData) (w : world) (out : option pystr),
     ∃ effs, main w out = (effs, Ok tt)).
Proof.
  intros Hne. split; [|split].
  - destruct (tasks_of grouped) as [|t ts] eqn:Ht;
      [by apply tasks_of_nonempty in Hne|].
    eexists. split; [by apply (render_lines_ok _ t ts)|].
    split; [unfold render_html; by rewrite (render_lines_ok _ t ts)|].
    split; [by eexists|].
    rewrite !app_assoc. by eexists.
  - apply group_by_task_model_nonempty.
  - intros U w out. apply main_total.
Qed.

Lemma C4_render_needs_a_group_witness :
  ∃ out, render_lines (group_by_task_model six_runs) = Ok out ∧
         html_head `prefix_of` out.
Proof.
  destruct (C4_render_needs_a_group (group_by_task_model six_runs))
    as ((out & Hout & _ & Hhead & _) & _).
  { apply group_by_task_model_nonempty. unfold six_runs. discriminate. }
  exists out. exact (conj Hout Hhead).
Defined.

(** ** The sections of the page *)

Lemma filter_none {A} (P : A → Prop) `{∀ x, Decision (P x)} (l : list A) :
  Forall (λ x, ¬ P x) l → filter P l = [].
Proof.
  induction 1 as [|x l Hx _ IH]; [done|].
  by rewrite filter_cons, decide_False, IH.
Qed.

Lemma Forall_concat_imap {A B} (P : B → Prop) (f : nat → A → list B)
    (l : list A) :
  (∀ i x, Forall P (f i x)) → Forall P (concat (imap f l)).
Proof.
  revert f. induction l as [|x l IH]; intros f Hf; simpl; [constructor|].
  apply Forall_app. split; [apply Hf|]. apply IH. intros i y. apply Hf.
Qed.










Lemma sorted_items_perm (grouped : gmap (pystr * pystr) (list VideoRecord)) :
  sorted_items grouped ≡ₚ map_to_list grouped.
Proof. apply py_sort_perm. Qed.





(** ** The captions *)

(** [str(n)] is the decimal numeral of [n]. *)
Lemma str_of_pos_fuel_digits (fuel : nat) (n : N) (acc : pystr) :
  Forall (λ c, is_ascii_digit c = true) acc →
  Forall (λ c, is_ascii_digit c = true) (str_of_pos_fuel fuel n acc).
Proof.
  revert n acc. induction fuel as [|fuel IH]; intros n acc Hacc; [done|].
  simpl. assert (is_ascii_digit (digit_char (n mod 10)) = true) as Hd.
  { unfold is_ascii_digit, digit_char.
    pose proof (N.mod_upper_bound n 10 ltac:(done)) as Hmod.
    generalize dependent (n mod 10)%N. intros d Hmod.
    apply andb_true_iff. split; apply N.leb_le; lia. }
  destruct (n / 10 =? 0)%N; [by constructor|].
  apply IH. by constructor.
Qed.

Lemma str_of_pos_fuel_value (fuel : nat) (n : N) (acc : pystr) :
  N.to_nat n < fuel →
  positional ((λ c, Z.of_N c - 48)%Z <$> str_of_pos_fuel fuel n acc)
  = (Z.of_N n * 10 ^ Z.of_nat (length acc)
     + positional ((λ c, Z.of_N c - 48)%Z <$> acc))%Z.
Proof.
  revert n acc. induction fuel as [|fuel IH]; intros n acc Hn; [lia|].
  simpl. pose proof (N.Div0.div_mod n 10) as Hdiv.
  pose proof (N.mod_upper_bound n 10 ltac:(done)) as Hmod.
  destruct (N.eqb_spec (n / 10) 0) as [Hq|Hq].
  - simpl. rewrite length_fmap. unfold digit_char.
    rewrite Hq, N.mul_0_r, N.add_0_l in Hdiv. rewrite <-Hdiv.
    by replace (Z.of_N (48 + n) - 48)%Z with (Z.of_N n) by lia.
  - assert (n ≠ 0)%N as Hpos by (by intros ->).
    assert (n / 10 < n)%N as Hlt by (apply N.div_lt; lia).
    rewrite IH by lia. simpl. rewrite length_fmap. unfold digit_char.
    rewrite Nat2Z.inj_succ, Z.pow_succ_r by lia.
    assert (Z.of_N n = 10 * Z.of_N (n / 10) + Z.of_N (n mod 10))%Z as ->
      by lia.
    replace (Z.of_N (48 + n mod 10) - 48)%Z with (Z.of_N (n mod 10)) by lia.
    rewrite Z.add_assoc. f_equal. ring.
Qed.

Lemma py_str_nat_decimal (n : nat) :
  Forall (λ c, is_ascii_digit c = true) (py_str_nat n) ∧
  positional ((λ c, Z.of_N c - 48)%Z <$> py_str_nat n) = Z.of_nat n.
Proof.
  unfold py_str_nat. split; [by apply str_of_pos_fuel_digits|].
  rewrite str_of_pos_fuel_value by lia. simpl. lia.
Qed.

Lemma concat_imap_lookup {A B} (f : nat → A → list B) (n : nat)
    (l : list A) (idx j : nat) (x : A) :
  (∀ i y, length (f i y) = n) →
  l !! idx = Some x →
  j < n →
  concat (imap f l) !! (n * idx + j) = f idx x !! j.
Proof.
  intros Hlen. revert f idx Hlen.
  induction l as [|a l IH]; intros f idx Hlen Hx Hj; [done|].
  simpl. destruct idx as [|idx]; simpl in Hx.
  - injection Hx as ->. rewrite Nat.mul_0_r. simpl.
    apply lookup_app_l. by rewrite Hlen.
  - replace (n * S idx + j) with (length (f 0 a) + (n * idx + j))
      by (rewrite Hlen; lia).
    rewrite lookup_app_r by lia.
    replace (length (f 0 a) + (n * idx + j) - length (f 0 a))
      with (n * idx + j) by lia.
    rewrite (IH (f ∘ S) idx); [done| |done..].
    intros i y. apply Hlen.
Qed.

Lemma render_section_card_line (k : pystr * pystr) (vids : list VideoRecord)
    (idx j : nat) (v : VideoRecord) :
  vids !! idx = Some v →
  j < 12 →
  render_section (k, vids) !! (4 + 12 * idx + j) = render_card idx v !! j.
Proof.
  intros Hv Hj. unfold render_section. cbn [fst snd].
  rewrite (lookup_app_r (_ :: _ :: _ :: _ :: [])) by (simpl; lia).
  replace (4 + 12 * idx + j - length _) with (12 * idx + j) by (simpl; lia).
  rewrite lookup_app_l.
  - by apply concat_imap_lookup.
  - apply lookup_lt_is_Some.
    rewrite (concat_imap_lookup render_card 12 vids idx j v); [|done..].
    apply lookup_lt_is_Some. simpl. lia.
Qed.

Lemma app_middle {A} (a b c d e i1 r i2 s t : list A) :
  a ++ b ++ c ++ d ++ e ++ (i1 ++ r ++ i2) ++ s ++ t
  = (a ++ b ++ c ++ d ++ e ++ i1) ++ r ++ (i2 ++ s ++ t).
Proof. by rewrite <-!app_assoc. Qed.

Lemma render_lines_holds_section
    (grouped : gmap (pystr * pystr) (list VideoRecord)) (out : list pystr)
    (k : pystr * pystr) (vids : list VideoRecord) :
  render_lines grouped = Ok out →
  grouped !! k = Some vids →
  ∃ before after, out = before ++ render_section (k, vids) ++ after.
Proof.
  intros Hout Hk.
  destruct (tasks_of grouped) as [|t ts] eqn:Ht.
  { unfold render_lines in Hout. by rewrite Ht in Hout. }
  rewrite (render_lines_ok _ t ts Ht) in Hout.
  apply Ok_inj in Hout. subst out.
  assert ((k, vids) ∈ sorted_items grouped) as Hin.
  { rewrite sorted_items_perm. by apply elem_of_map_to_list. }
  apply list_elem_of_split in Hin as (items1 & items2 & ->).
  rewrite bind_app, bind_cons. eexists _, _. apply app_middle.
Qed.

(** C8. In the section of a group the card of the record at position
    [idx] of the group shows that record's video and the caption
    [Feedback iteration idx], where [idx] is written as a decimal
    numeral; the iteration number of the record plays no part: the
    caption line is the same whatever record stands at that position. *)
Theorem C8_caption_is_position
    (grouped : gmap (pystr * pystr) (list VideoRecord)) (out : list pystr)
    (k : pystr * pystr) (vids : list VideoRecord) (idx : nat)
    (v : VideoRecord) :
  render_lines grouped = Ok out →
  grouped !! k = Some vids →
  vids !! idx = Some v →
  (∃ before after, out = before ++ render_section (k, vids) ++ after) ∧
  render_section (k, vids) !! (4 + 12 * idx + 4)
    = Some (lit "              <source src=" ++ dq ++ path v ++ dq
            ++ lit " type=" ++ q "video/mp4" ++ lit ">") ∧
  render_section (k, vids) !! (4 + 12 * idx + 8)
    = Some (lit "            <p class=" ++ q "subtitle is-6" ++ lit ">"
            ++ (lit "Feedback iteration " ++ py_str_nat idx) ++ lit "</p>") ∧
  (∀ vids' v', vids' !! idx = Some v' →
     render_section (k, vids') !! (4 + 12 * idx + 8)
     = render_section (k, vids) !! (4 + 12 * idx + 8)) ∧
  Forall (λ c, is_ascii_digit c = true) (py_str_nat idx) ∧
  positional ((λ c, Z.of_N c - 48)%Z <$> py_str_nat idx) = Z.of_nat idx.
Proof.
  intros Hout Hk Hv.
  split; [by eapply render_lines_holds_section|].
  split.
  { by rewrite (render_section_card_line k vids idx 4 v) by (done || lia). }
  split.
  { by rewrite (render_section_card_line k vids idx 8 v) by (done || lia). }
  split; [|apply py_str_nat_decimal].
  intros vids' v' Hv'.
  rewrite (render_section_card_line k vids' idx 8 v') by (done || lia).
  by rewrite (render_section_card_line k vids idx 8 v) by (done || lia).
Qed.

Lemma C8_caption_is_position_witness :
  render_section
    ((lit "taskX", lit "gpt-5-2025-08-07"), run_video <$> [7; 8; 9])
    !! (4 + 12 * 2 + 8)
  = Some (lit "            <p class=" ++ q "subtitle is-6" ++ lit ">"
          ++ (lit "Feedback iteration " ++ py_str_nat 2) ++ lit "</p>").
Proof.
  pose (grouped := {[ (lit "taskX", lit "gpt-5-2025-08-07")
                      := run_video <$> [7; 8; 9] ]}
                   : gmap (pystr * pystr) (list VideoRecord)).
  destruct (render_lines grouped) as [out|e] eqn:Hout;
    [|vm_compute in Hout; discriminate Hout].
  refine (proj1 (proj2 (proj2
    (C8_caption_is_position grouped out (lit "taskX", lit "gpt-5-2025-08-07")
       (run_video <$> [7; 8; 9]) 2 (run_video 9) Hout _ _)))).
  - apply lookup_singleton_eq.
  - reflexivity.
Defined.

(** ** The records of one walk have different keys *)

Lemma split_on_no_sep (c : N) (s : pystr) : c ∉ s → split_on c s = [s].
Proof.
  induction s as [|x s IH]; intros Hc; [done|]. simpl.
  destruct (N.eqb_spec x c) as [->|Hne]; [destruct Hc; left|].
  rewrite IH; [done|]. intros Hin. apply Hc. by right.
Qed.

Lemma split_on_app (c : N) (p s : pystr) :
  c ∉ p → split_on c (p ++ c :: s) = p :: split_on c s.
Proof.
  induction p as [|x p IH]; intros Hc; simpl.
  - by rewrite N.eqb_refl.
  - destruct (N.eqb_spec x c) as [->|Hne]; [destruct Hc; left|].
    rewrite IH; [done|]. intros Hin. apply Hc. by right.
Qed.

Lemma split_on_join (parts : list pystr) :
  proper_segments parts →
  split_on 47 (py_join (lit "/") parts) = parts.
Proof.
  intros [Hne Hfree]. change (lit "/") with [47%N].
  induction Hfree as [|p parts Hp Hfree IH]; [done|].
  destruct parts as [|p' parts]; simpl.
  - by apply split_on_no_sep.
  - rewrite split_on_app by done. f_equal. by apply IH.
Qed.

Lemma py_join_inj (parts1 parts2 : list pystr) :
  proper_segments parts1 → proper_segments parts2 →
  py_join (lit "/") parts1 = py_join (lit "/") parts2 → parts1 = parts2.
Proof.
  intros H1 H2 Heq.
  by rewrite <-(split_on_join parts1), <-(split_on_join parts2), Heq.
Qed.

(** The records located on proper paths are told apart by their web
    path alone, so no two different ones share a sort key. *)
Lemma located_distinct_keys `{U : UnicodeData} (vdir : pystr)
    (paths : list (list pystr)) :
  Forall proper_segments paths → distinct_keys (located vdir paths).
Proof.
  intros Hproper x y Hx Hy _ Hkey. rewrite Forall_forall in Hproper.
  apply elem_of_located in Hx as (px & Hpx & Hvx).
  apply elem_of_located in Hy as (py & Hpy & Hvy).
  assert (px = py) as ->; [|congruence].
  apply py_join_inj; [by apply Hproper..|].
  apply video_of_parts_inv in Hvx as (_ & _ & _ & _ & _ & _ & _ & _ & Hx & _).
  apply video_of_parts_inv in Hvy as (_ & _ & _ & _ & _ & _ & _ & _ & Hy & _).
  injection Hkey as _ Hpath. rewrite Hx, Hy in Hpath.
  by apply app_inv_head in Hpath.
Qed.

(** X1. The grouping of what the Locator returns does not depend on the
    order in which the walk met the files. *)
Theorem walk_order_irrelevant `{U : UnicodeData} (w : world) (tree : fsnode)
    (recs shuffled : list VideoRecord) :
  videos w = Some tree →
  Forall proper_segments (rglob VIDEO_NAME tree) →
  (find_videos w).2 = Ok recs →
  recs ≡ₚ shuffled →
  group_by_task_model recs = group_by_task_model shuffled.
Proof.
  intros Hw Hproper Hrecs Hperm.
  rewrite (find_videos_Some w tree Hw) in Hrecs.
  apply Ok_inj in Hrecs. subst recs.
  apply group_by_task_model_perm; [done|]. by apply located_distinct_keys.
Qed.

Lemma walk_order_irrelevant_witness :
  group_by_task_model
    (located (U := sample_unicode) (videos_dir (lit "/srv/site"))
       (rglob VIDEO_NAME clash_tree))
  = group_by_task_model
      (reverse (located (U := sample_unicode) (videos_dir (lit "/srv/site"))
                  (rglob VIDEO_NAME clash_tree))).
Proof.
  apply (walk_order_irrelevant (U := sample_unicode) clash_world clash_tree).
  - reflexivity.
  - apply Forall_forall. intros parts Hparts. split.
    + by eapply rglob_nonempty.
    + revert parts Hparts. apply Forall_forall.
      repeat constructor;
        (apply (bool_decide_unpack _); vm_compute; exact I).
  - by rewrite (find_videos_Some clash_world clash_tree).
  - symmetry. apply reverse_Permutation.
Defined.

(** ** Further properties of the stages *)

(** X2. The sort of the Aggregator is stable: the records of one sort
    key leave the sort in the order they entered it. *)
Theorem aggregator_sort_is_stable (k : Z * pystr) (l : list VideoRecord) :
  filter (λ v, sort_key v = k) (py_sort int_str_lt sort_key l)
  = filter (λ v, sort_key v = k) l.
Proof. apply py_sort_stable, int_str_lt_strict_total. Qed.

(** X3. [main] returns normally on every machine and for every value of
    [--out]: neither the Locator nor the Renderer raises in a run.  The
    opening and writing of the [--out] file are taken to succeed. *)
Theorem main_never_raises `{U : UnicodeData} (w : world) (out : option pystr) :
  ∃ effs, main w out = (effs, Ok tt).
Proof. apply main_total. Qed.

(** ** What every located record satisfies *)

Lemma last_suffix {A} (l : list A) (c : A) : [c] `suffix_of` l → last l = Some c.
Proof. intros [k ->]. by rewrite last_snoc. Qed.

Lemma joinpath_plain (a b : pystr) (c : N) :
  last a = Some c → c ≠ 47%N → joinpath a b = a ++ lit "/" ++ b.
Proof.
  intros Hlast Hc. unfold joinpath. case_bool_decide as Hs; [|done].
  change (lit "/") with [47%N] in Hs. apply last_suffix in Hs. congruence.
Qed.

(** The web path is the path of the file relative to the base. *)
Lemma videos_dir_join (b rel : pystr) :
  joinpath (videos_dir b) rel
  = joinpath b (lit "static/videos/highlight-videos/" ++ rel).
Proof.
  unfold videos_dir.
  assert (∃ b', (∀ x, joinpath b x = b' ++ x)) as [b' Hb'].
  { unfold joinpath. case_bool_decide.
    - by exists b.
    - exists (b ++ lit "/"). intros x. by rewrite <-app_assoc. }
  rewrite !Hb'.
  rewrite (joinpath_plain (b' ++ lit "static") _ 99);
    [|by rewrite last_app|done].
  rewrite (joinpath_plain (_ ++ _ ++ lit "videos") _ 115);
    [|by rewrite !last_app|done].
  rewrite (joinpath_plain (_ ++ _ ++ lit "highlight-videos") _ 115);
    [|by rewrite !last_app|done].
  rewrite <-!app_assoc. reflexivity.
Qed.

Lemma py_join_snoc (sep : pystr) (l : list pystr) (x : pystr) :
  l ≠ [] → py_join sep (l ++ [x]) = py_join sep l ++ sep ++ x.
Proof.
  induction l as [|y l IH]; [done|]. intros _.
  destruct l as [|z l]; [done|].
  change (py_join sep ((y :: z :: l) ++ [x]))
    with (y ++ sep ++ py_join sep ((z :: l) ++ [x])).
  rewrite IH by done.
  change (py_join sep (y :: z :: l)) with (y ++ sep ++ py_join sep (z :: l)).
  by rewrite <-!app_assoc.
Qed.

Lemma located_model_and_task `{U : UnicodeData} (vdir : pystr)
    (parts : list pystr) (v : VideoRecord) :
  last parts = Some VIDEO_NAME →
  video_of_parts vdir parts = Ok (Some v) →
  py_in (lit "gpt-5") (model v) = true ∧
  py_in (lit "gpt-5") (task v) = false.
Proof.
  intros Hlast (_ & i & Hi & _ & Hta & Hmo & _)%video_of_parts_inv.
  apply model_idx_Some in Hi as [(m & Hm & Hin) Hfirst].
  apply py_getitem_nat in Hmo. rewrite Hm in Hmo. injection Hmo as ->.
  split; [done|]. destruct i as [|i].
  - apply py_getitem_minus_one in Hta. rewrite Hlast in Hta.
    injection Hta as <-. apply VIDEO_NAME_no_gpt5.
  - replace (Z.of_nat (S i) - 1)%Z with (Z.of_nat i) in Hta by lia.
    apply py_getitem_nat in Hta. apply (Hfirst i); [lia|done].
Qed.

Lemma located_path_suffix `{U : UnicodeData} (vdir : pystr)
    (parts : list pystr) (v : VideoRecord) :
  last parts = Some VIDEO_NAME →
  video_of_parts vdir parts = Ok (Some v) →
  lit "/sim.mp4" `suffix_of` path v.
Proof.
  intros Hlast (Hlen & _ & _ & _ & _ & _ & _ & _ & -> & _)%video_of_parts_inv.
  apply last_Some in Hlast as [init ->].
  rewrite py_join_snoc.
  - exists (lit "static/videos/highlight-videos/" ++ py_join (lit "/") init).
    by rewrite <-!app_assoc.
  - intros ->. simpl in Hlen. lia.
Qed.

(** X4. Every record the Locator returns has a model that contains
    [gpt-5] and a task that does not; its iteration name is its run
    identifier; its web path starts with
    [static/videos/highlight-videos/] and ends in [/sim.mp4]; and its
    absolute path is the base directory joined with the web path. *)
Theorem located_record_invariants `{U : UnicodeData} (w : world)
    (recs : list VideoRecord) (v : VideoRecord) :
  (find_videos w).2 = Ok recs →
  v ∈ recs →
  py_in (lit "gpt-5") (model v) = true ∧
  py_in (lit "gpt-5") (task v) = false ∧
  iter_name v = run_id v ∧
  lit "static/videos/highlight-videos/" `prefix_of` path v ∧
  lit "/sim.mp4" `suffix_of` path v ∧
  abs_path v = joinpath (base w) (path v).
Proof.
  intros Hrecs Hv. destruct (videos w) as [tree|] eqn:Hw.
  - rewrite (find_videos_Some w tree Hw) in Hrecs.
    apply Ok_inj in Hrecs. subst recs.
    apply elem_of_located in Hv as (parts & Hparts%rglob_last & Hv).
    destruct (located_model_and_task _ _ _ Hparts Hv) as [Hmo Hta].
    pose proof (located_path_suffix _ _ _ Hparts Hv) as Hsuffix.
    apply video_of_parts_inv in Hv
      as (_ & _ & _ & _ & _ & _ & _ & _ & Hpath & Habs & Hname).
    split; [done|]. split; [done|]. split; [done|].
    split; [rewrite Hpath; by eexists|]. split; [done|].
    by rewrite Habs, Hpath, videos_dir_join.
  - rewrite (find_videos_None w Hw) in Hrecs.
    apply Ok_inj in Hrecs. subst recs. by apply elem_of_nil in Hv.
Qed.

Lemma located_record_invariants_witness :
  ∃ v, v ∈ located (U := sample_unicode) (videos_dir (lit "/srv/site"))
             (rglob VIDEO_NAME (chain sample_parts)) ∧
       py_in (lit "gpt-5") (task v) = false ∧
       abs_path v = joinpath (lit "/srv/site") (path v).
Proof.
  destruct (video_of_parts_found (U := sample_unicode)
              (videos_dir (lit "/srv/site")) sample_parts 4) as [v Hv].
  { reflexivity. }
  { simpl. lia. }
  { apply model_idx_Some. vm_compute. reflexivity. }
  assert (v ∈ located (U := sample_unicode) (videos_dir (lit "/srv/site"))
                (rglob VIDEO_NAME (chain sample_parts))) as Hin.
  { apply elem_of_located. exists sample_parts. split; [|done].
    apply (bool_decide_unpack _). vm_compute. exact I. }
  exists v. split; [done|].
  destruct (located_record_invariants (U := sample_unicode) sample_world
              (located (U := sample_unicode) (videos_dir (lit "/srv/site"))
                 (rglob VIDEO_NAME (chain sample_parts))) v)
    as (_ & Hta & _ & _ & _ & Habs); [|exact Hin|by split].
  by rewrite (find_videos_Some sample_world (chain sample_parts)).
Defined.

(** ** The iteration number is not negative *)

Lemma foldl_int_step_nonneg `{U : UnicodeData} (run : pystr) (acc n : Z) :
  decimal_nonneg → (0 ≤ acc)%Z →
  foldl int_step (Some acc) run = Some n → (0 ≤ n)%Z.
Proof.
  intros Htable. revert acc. induction run as [|c run IH]; intros acc Hacc.
  - simpl. intros [= <-]. done.
  - simpl. destruct (decimal c) as [d|] eqn:Hd.
    + apply IH. specialize (Htable c d Hd). lia.
    + assert (foldl int_step None run = None) as ->; [|done].
      clear. by induction run.
Qed.

Lemma sample_unicode_nonneg : @decimal_nonneg sample_unicode.
Proof.
  intros c d. simpl. unfold sample_decimal.
  destruct (is_ascii_digit c); [intros [= <-]; lia|].
  destruct (_ && _); [intros [= <-]; lia|done].
Qed.

(** X5. The iteration number of a record is never negative: the match of
    [\d+] holds digits only, so a sign before them is not read. *)
Theorem iter_num_not_negative `{U : UnicodeData} (vdir : pystr)
    (parts : list pystr) (v : VideoRecord) :
  decimal_nonneg →
  video_of_parts vdir parts = Ok (Some v) →
  (0 ≤ iter_num v)%Z.
Proof.
  intros Htable (_ & _ & _ & _ & _ & _ & _ & Hiter & _)%video_of_parts_inv.
  destruct (ITER_RE_search (run_id v)) as [g|]; [|lia].
  unfold py_int in Hiter. destruct g as [|c g]; [done|].
  destruct (foldl int_step (Some 0%Z) (c :: g)) as [n|] eqn:Hn; [|done].
  injection Hiter as <-. by eapply foldl_int_step_nonneg.
Qed.

Lemma iter_num_not_negative_witness :
  ∃ v, video_of_parts (U := sample_unicode) (lit "/v")
         [lit "set1"; lit "kitchen"; lit "runs"; lit "stack"; lit "gpt-5";
          lit "run_-3"; lit "sim.mp4"] = Ok (Some v) ∧
       (0 ≤ iter_num v)%Z.
Proof.
  destruct (video_of_parts (U := sample_unicode) (lit "/v")
              [lit "set1"; lit "kitchen"; lit "runs"; lit "stack";
               lit "gpt-5"; lit "run_-3"; lit "sim.mp4"])
    as [[v|]|e] eqn:Hv; [|vm_compute in Hv; discriminate Hv..].
  exists v. split; [done|].
  exact (iter_num_not_negative (U := sample_unicode) _ _ v
           sample_unicode_nonneg Hv).
Defined.

(** ** What the groups hold *)

Lemma sort_and_trim_length (ms : list VideoRecord) :
  length (sort_and_trim ms)
  = if bool_decide (length ms = 6) then 5 else length ms.
Proof.
  unfold sort_and_trim. cbv zeta.
  pose proof (py_sort_length int_str_lt sort_key ms) as Hsort.
  repeat case_bool_decide; rewrite ?length_take; lia.
Qed.

Lemma elem_of_sort_and_trim (ms : list VideoRecord) (v : VideoRecord) :
  v ∈ sort_and_trim ms → v ∈ ms.
Proof.
  unfold sort_and_trim. cbv zeta. case_bool_decide.
  - intros Hv%subseteq_take. by rewrite py_sort_perm in Hv.
  - by rewrite py_sort_perm.
Qed.

Lemma elem_of_members (k : pystr * pystr) (videos : list VideoRecord)
    (v : VideoRecord) :
  v ∈ members k videos ↔ group_key v = k ∧ v ∈ videos.
Proof. unfold members. by rewrite list_elem_of_filter. Qed.

Lemma group_of_members (videos : list VideoRecord) (k : pystr * pystr)
    (g : list VideoRecord) :
  group_by_task_model videos !! k = Some g →
  members k videos ≠ [] ∧ g = sort_and_trim (members k videos).
Proof.
  rewrite group_by_task_model_lookup.
  destruct (members k videos) as [|m ms]; [done|]. by intros [= <-].
Qed.

(** X6. A group of the result is never empty, holds only records of the
    input with the key of the group, and never has exactly six records:
    its length is that of the input records of its key, or five when
    those are six. *)
Theorem group_invariants (videos : list VideoRecord) (k : pystr * pystr)
    (g : list VideoRecord) :
  group_by_task_model videos !! k = Some g →
  g ≠ [] ∧
  (∀ v, v ∈ g → v ∈ videos ∧ group_key v = k) ∧
  length g ≠ 6 ∧
  length g = (if bool_decide (length (members k videos) = 6) then 5
              else length (members k videos)).
Proof.
  intros [Hne ->]%group_of_members.
  pose proof (sort_and_trim_length (members k videos)) as Hlen.
  split_and!.
  - intros Hnil. rewrite Hnil in Hlen. simpl in Hlen.
    case_bool_decide; [done|]. by destruct (members k videos).
  - intros v Hv%elem_of_sort_and_trim%elem_of_members. by destruct Hv.
  - rewrite Hlen. case_bool_decide; [done|lia].
  - done.
Qed.

Lemma group_invariants_witness :
  ∃ g, group_by_task_model six_runs
         !! (lit "taskX", lit "gpt-5-2025-08-07") = Some g ∧
       length g = 5.
Proof.
  destruct (group_by_task_model six_runs
              !! (lit "taskX", lit "gpt-5-2025-08-07")) as [g|] eqn:Hg;
    [|vm_compute in Hg; discriminate Hg].
  exists g. split; [done|].
  destruct (group_invariants _ _ _ Hg) as (_ & _ & _ & ->).
  vm_compute. reflexivity.
Defined.

(** X7. Every record of the input is in the group of its key, with one
    exception: when its key has exactly six records, the last of them in
    sorted order is left out. *)
Theorem record_kept_unless_sixth (videos : list VideoRecord)
    (v : VideoRecord) :
  v ∈ videos →
  ∃ g, group_by_task_model videos !! group_key v = Some g ∧
       (v ∈ g ∨
        (length (sorted_members (group_key v) videos) = 6 ∧
         sorted_members (group_key v) videos !! 5 = Some v)).
Proof.
  intros Hv. rewrite group_by_task_model_lookup.
  assert (v ∈ members (group_key v) videos) as Hm
    by by apply elem_of_members.
  destruct (members (group_key v) videos) as [|m ms] eqn:Hms;
    [by apply elem_of_nil in Hm|].
  eexists. split; [done|].
  unfold sorted_members, sort_and_trim. rewrite Hms.
  rewrite <-(py_sort_perm int_str_lt sort_key (m :: ms)) in Hm.
  case_bool_decide as Hlen; [|by left].
  rewrite <-(take_drop 5 (py_sort _ _ _)) in Hm.
  apply elem_of_app in Hm as [Hm|Hm]; [by left|right].
  split; [done|].
  apply list_elem_of_lookup in Hm as [i Hi].
  pose proof (lookup_lt_Some _ _ _ Hi) as Hlt.
  rewrite length_drop, Hlen in Hlt.
  rewrite lookup_drop in Hi. by replace (5 + i) with 5 in Hi by lia.
Qed.

Lemma record_kept_unless_sixth_witness :
  ∃ g, group_by_task_model six_runs !! group_key (run_video 5) = Some g ∧
       (run_video 5 ∉ g) ∧ (run_video 4 ∈ g).
Proof.
  destruct (record_kept_unless_sixth six_runs (run_video 5)) as (g & Hg & _).
  { apply (bool_decide_unpack _). vm_compute. exact I. }
  exists g. split; [done|].
  vm_compute in Hg. injection Hg as <-.
  split; apply (bool_decide_unpack _); vm_compute; exact I.
Defined.

(** ** Grouping a group again *)

Lemma insert_by_first {A K} (lt : K → K → bool) (key : A → K) (x : A)
    (l : list A) :
  Forall (key_le lt key x) l → insert_by lt key x l = x :: l.
Proof.
  destruct l as [|y l]; [done|]. intros [Hy _]%Forall_cons.
  simpl. unfold key_le in Hy. by rewrite Hy.
Qed.

Lemma py_sort_of_sorted {A K} (lt : K → K → bool) (key : A → K)
    (l : list A) :
  StronglySorted (key_le lt key) l → py_sort lt key l = l.
Proof.
  induction 1 as [|x l Hs IH Hx]; [done|].
  unfold py_sort in *. simpl. rewrite IH. by apply insert_by_first.
Qed.

Lemma members_all (k : pystr * pystr) (g : list VideoRecord) :
  (∀ v, v ∈ g → group_key v = k) → members k g = g.
Proof.
  unfold members. induction g as [|v g IH]; intros Hk; [done|].
  rewrite filter_cons, decide_True by (apply Hk; left).
  f_equal. apply IH. intros v' Hv'. apply Hk. by right.
Qed.

Lemma members_none (k k' : pystr * pystr) (g : list VideoRecord) :
  k ≠ k' → (∀ v, v ∈ g → group_key v = k) → members k' g = [].
Proof.
  unfold members. intros Hne. induction g as [|v g IH]; intros Hk; [done|].
  rewrite filter_cons, decide_False.
  - apply IH. intros v' Hv'. apply Hk. by right.
  - rewrite (Hk v) by left. done.
Qed.

(** X8. Grouping is a fixed point on its own groups: the Aggregator
    applied to the records of one group of its result returns that group
    alone, unchanged. *)
Theorem regroup_is_identity (videos : list VideoRecord) (k : pystr * pystr)
    (g : list VideoRecord) :
  group_by_task_model videos !! k = Some g →
  group_by_task_model g = {[ k := g ]}.
Proof.
  intros Hg.
  assert (g ≠ [] ∧ (∀ v, v ∈ g → group_key v = k) ∧ length g ≠ 6)
    as (Hne & Hkey & Hlen).
  { apply group_of_members in Hg as [Hne ->].
    pose proof (sort_and_trim_length (members k videos)) as Hlen.
    split_and!.
    - intros Hnil. rewrite Hnil in Hlen. simpl in Hlen.
      case_bool_decide; [done|]. by destruct (members k videos).
    - intros v Hv%elem_of_sort_and_trim%elem_of_members. by destruct Hv.
    - rewrite Hlen. case_bool_decide; [done|lia]. }
  assert (sort_and_trim g = g) as Hfix.
  { unfold sort_and_trim. cbv zeta.
    rewrite py_sort_of_sorted.
    - by rewrite bool_decide_eq_false_2.
    - apply group_of_members in Hg as [_ ->]. apply sort_and_trim_sorted. }
  apply map_eq. intros k'. rewrite group_by_task_model_lookup.
  destruct (decide (k = k')) as [<-|Hk'].
  - rewrite lookup_singleton_eq, members_all by done.
    destruct g; [done|]. by rewrite Hfix.
  - rewrite lookup_singleton_ne by done.
    by rewrite (members_none k k' g).
Qed.

Lemma regroup_is_identity_witness :
  group_by_task_model (run_video <$> [0; 1; 2; 3; 4])
  = {[ (lit "taskX", lit "gpt-5-2025-08-07") := run_video <$> [0; 1; 2; 3; 4] ]}.
Proof.
  apply (regroup_is_identity six_runs). vm_compute. reflexivity.
Defined.

(** ** The lists the page is built from *)

Lemma sorted_strictly {A K} (lt : K → K → bool) (key : A → K) (l : list A) :
  strict_total lt →
  NoDup (key <$> l) →
  StronglySorted (key_le lt key) l →
  StronglySorted (λ x y, lt (key x) (key y) = true) l.
Proof.
  intros Hlt Hnd Hs. induction Hs as [|x l Hs IH Hx]; [constructor|].
  rewrite fmap_cons in Hnd. apply NoDup_cons in Hnd as [Hx' Hnd].
  constructor; [by apply IH|].
  rewrite Forall_forall in Hx |- *. intros y Hy.
  destruct (lt (key x) (key y)) eqn:Hxy; [done|].
  destruct Hx'. rewrite (lt_connex _ Hlt _ _ Hxy (Hx y Hy)).
  by apply list_elem_of_fmap_2.
Qed.

Lemma py_sort_strictly {A K} (lt : K → K → bool) (key : A → K) (l : list A) :
  strict_total lt →
  NoDup (key <$> l) →
  StronglySorted (λ x y, lt (key x) (key y) = true) (py_sort lt key l).
Proof.
  intros Hlt Hnd. apply sorted_strictly; [done| |by apply py_sort_sorted].
  by rewrite py_sort_perm.
Qed.

Lemma sorted_str_strictly (l : list pystr) :
  NoDup l → strictly_ascending str_lt (sorted_str l).
Proof.
  intros Hnd. apply (py_sort_strictly str_lt id); [|by rewrite list_fmap_id].
  apply str_lt_strict_total.
Qed.

Lemma models_of_elem (grouped : gmap (pystr * pystr) (list VideoRecord))
    (t m : pystr) :
  m ∈ models_of grouped t ↔ is_Some (grouped !! (t, m)).
Proof.
  unfold models_of. rewrite sorted_str_perm, elem_of_elements, elem_of_map.
  split.
  - intros ([t' m'] & -> & [Ht Hk%elem_of_dom]%elem_of_filter).
    simpl in Ht. by subst.
  - intros Hk. exists (t, m). split; [done|].
    apply elem_of_filter. split; [done|]. by apply elem_of_dom.
Qed.

(** X9. The list of tasks and, for each task, its list of models are
    strictly ascending, so without repetition; a task is listed exactly
    when some group has it, and a model is listed for a task exactly when
    the pair has a group. *)
Theorem selection_lists (grouped : gmap (pystr * pystr) (list VideoRecord)) :
  strictly_ascending str_lt (tasks_of grouped) ∧
  (∀ t, t ∈ tasks_of grouped ↔ ∃ m, is_Some (grouped !! (t, m))) ∧
  (∀ t, strictly_ascending str_lt (models_of grouped t)) ∧
  (∀ t m, m ∈ models_of grouped t ↔ is_Some (grouped !! (t, m))) ∧
  (models_by_task_of grouped).*1 = tasks_of grouped ∧
  (∀ t ms, (t, ms) ∈ models_by_task_of grouped → ms = models_of grouped t).
Proof.
  split_and!.
  - apply sorted_str_strictly, NoDup_elements.
  - apply tasks_of_elem.
  - intros t. apply sorted_str_strictly, NoDup_elements.
  - apply models_of_elem.
  - unfold models_by_task_of. rewrite <-list_fmap_compose.
    apply list_fmap_id.
  - unfold models_by_task_of. intros t ms (t' & [= -> ->] & _)%list_elem_of_fmap.
    done.
Qed.

(** ** The option and source lines of the page *)

Lemma render_lines_inv (grouped : gmap (pystr * pystr) (list VideoRecord))
    (out : list pystr) :
  render_lines grouped = Ok out →
  ∃ t ts, tasks_of grouped = t :: ts ∧
    out = html_head
        ++ [ lit "<div class=" ++ q "section" ++ lit ">";
             lit "  <div class=" ++ q "container is-max-desktop" ++ lit ">" ]
        ++ task_selector (t :: ts)
        ++ model_selector (models_of grouped t)
        ++ [ lit "  </div>";
             lit "</div>" ]
        ++ (sorted_items grouped ≫= render_section)
        ++ script (models_by_task_of grouped)
        ++ [ lit "</body>";
             lit "</html>" ].
Proof.
  intros Hout. destruct (tasks_of grouped) as [|t ts] eqn:Ht.
  { unfold render_lines in Hout. by rewrite Ht in Hout. }
  rewrite (render_lines_ok _ t ts Ht) in Hout. apply Ok_inj in Hout.
  by exists t, ts.
Qed.

Lemma filter_all {A} (P : A → Prop) `{∀ x, Decision (P x)} (l : list A) :
  Forall P l → filter P l = l.
Proof.
  induction 1 as [|x l Hx _ IH]; [done|].
  by rewrite filter_cons, decide_True, IH.
Qed.

Lemma Forall_bind_list {A B} (P : B → Prop) (f : A → list B) (l : list A) :
  (∀ x, Forall P (f x)) → Forall P (l ≫= f).
Proof.
  intros Hf. induction l as [|x l IH]; [constructor|].
  rewrite bind_cons. apply Forall_app. by split.
Qed.

Lemma option_line_is_option (name : pystr) : is_option_line (option_line name).
Proof.
  unfold is_option_line, option_line, option_prefix.
  eexists. rewrite <-!app_assoc. reflexivity.
Qed.

Lemma selector_options (names : list pystr) :
  filter is_option_line (task_selector names) = option_line <$> names ∧
  filter is_option_line (model_selector names) = option_line <$> names.
Proof.
  unfold task_selector, model_selector. rewrite !filter_app.
  rewrite (filter_all _ (option_line <$> names))
    by (apply Forall_fmap, Forall_true; intros name; apply option_line_is_option).
  rewrite !filter_none; [by rewrite app_nil_r|repeat constructor; no_prefix 14..].
Qed.

Lemma render_section_no_option (item : (pystr * pystr) * list VideoRecord) :
  Forall (λ l, ¬ is_option_line l) (render_section item).
Proof.
  unfold render_section, section_open. repeat (apply Forall_app; split).
  - repeat constructor; no_prefix 14.
  - apply Forall_concat_imap. intros idx v. unfold render_card.
    generalize (caption_of idx); intros caption.
    repeat constructor; no_prefix 14.
  - repeat constructor; no_prefix 14.
Qed.

Lemma script_no_option (models_by_task : list (pystr * list pystr)) :
  Forall (λ l, ¬ is_option_line l) (script models_by_task).
Proof.
  unfold script. generalize (json_dumps models_by_task); intros json.
  repeat constructor; no_prefix 14.
Qed.

(** X10. The option elements of the page are one per task, in ascending
    order of the tasks, followed by one per model of the first task, which
    is the least one: the model control starts with the models of the
    task the task control shows first. *)
Theorem page_options (grouped : gmap (pystr * pystr) (list VideoRecord))
    (out : list pystr) :
  render_lines grouped = Ok out →
  ∃ t ts, tasks_of grouped = t :: ts ∧
    (∀ t', t' ∈ ts → str_lt t t' = true) ∧
    filter is_option_line out
    = (option_line <$> t :: ts) ++ (option_line <$> models_of grouped t).
Proof.
  intros (t & ts & Ht & ->)%render_lines_inv. exists t, ts.
  split; [done|]. split.
  { pose proof (sorted_str_strictly
                  (elements (set_map fst (dom grouped) : gset pystr))
                  (NoDup_elements _)) as Hs.
    fold (tasks_of grouped) in Hs. rewrite Ht in Hs.
    apply StronglySorted_cons in Hs as [Hs _].
    by rewrite Forall_forall in Hs. }
  rewrite !filter_app.
  destruct (selector_options (t :: ts)) as [-> _].
  destruct (selector_options (models_of grouped t)) as [_ ->].
  rewrite (filter_none _ html_head)
    by (unfold html_head; repeat constructor; no_prefix 14).
  rewrite (filter_none _ (_ ≫= _))
    by apply Forall_bind_list, render_section_no_option.
  rewrite (filter_none _ (script _)) by apply script_no_option.
  rewrite !filter_none; [|repeat constructor; no_prefix 14..].
  by rewrite !app_nil_r.
Qed.

Lemma page_options_witness :
  ∃ out, render_lines (group_by_task_model six_runs) = Ok out ∧
         filter is_option_line out
         = [option_line (lit "taskX"); option_line (lit "gpt-5-2025-08-07")].
Proof.
  destruct (render_lines (group_by_task_model six_runs)) as [out|e] eqn:Hout;
    [|vm_compute in Hout; discriminate Hout].
  exists out. split; [done|].
  destruct (page_options _ _ Hout) as (t & ts & Ht & _ & ->).
  vm_compute in Ht. injection Ht as <- <-.
  vm_compute. reflexivity.
Defined.

Lemma source_line_is_source (web_path : pystr) :
  is_source_line (source_line web_path).
Proof.
  unfold is_source_line, source_line, source_prefix.
  eexists. rewrite <-!app_assoc. reflexivity.
Qed.

Lemma render_card_sources (idx : nat) (v : VideoRecord) :
  filter is_source_line (render_card idx v) = [source_line (path v)].
Proof.
  unfold render_card. generalize (caption_of idx); intros caption.
  do 4 (rewrite filter_cons, decide_False by no_prefix 15).
  rewrite filter_cons, decide_True by apply source_line_is_source.
  do 7 (rewrite filter_cons, decide_False by no_prefix 15).
  done.
Qed.

Lemma filter_concat_imap {A B} (P : B → Prop) `{∀ x, Decision (P x)}
    (f : nat → A → list B) (g : A → B) (l : list A) :
  (∀ i x, filter P (f i x) = [g x]) →
  filter P (concat (imap f l)) = g <$> l.
Proof.
  revert f. induction l as [|x l IH]; intros f Hf; [done|].
  simpl. rewrite filter_app, Hf, (IH (f ∘ S)); [done|].
  intros i y. apply Hf.
Qed.

Lemma render_section_sources (item : (pystr * pystr) * list VideoRecord) :
  filter is_source_line (render_section item)
  = (λ v, source_line (path v)) <$> item.2.
Proof.
  unfold render_section, section_open. rewrite !filter_app.
  rewrite (filter_concat_imap _ render_card (λ v, source_line (path v)))
    by apply render_card_sources.
  rewrite !filter_none; [by rewrite app_nil_r|repeat constructor; no_prefix 15..].
Qed.

Lemma render_sections_sources
    (items : list ((pystr * pystr) * list VideoRecord)) :
  filter is_source_line (items ≫= render_section)
  = items ≫= (λ item, (λ v, source_line (path v)) <$> item.2).
Proof.
  induction items as [|item items IH]; [done|].
  by rewrite !bind_cons, filter_app, render_section_sources, IH.
Qed.

Lemma sorted_items_strictly
    (grouped : gmap (pystr * pystr) (list VideoRecord)) :
  strictly_ascending str_str_lt (sorted_items grouped).*1.
Proof.
  unfold strictly_ascending, sorted_items.
  apply StronglySorted_fmap
    with (R1 := λ x y : (pystr * pystr) * list VideoRecord,
                  str_str_lt x.1 y.1 = true); [done|].
  apply (py_sort_strictly str_str_lt fst).
  - apply str_str_lt_strict_total.
  - apply NoDup_fst_map_to_list.
Qed.

(** X11. The page names the video of every record of the grouping exactly
    once and verbatim: its source lines are those of the groups in
    strictly ascending order of [(task, model)], each group in its own
    order. *)
Theorem page_sources (grouped : gmap (pystr * pystr) (list VideoRecord))
    (out : list pystr) :
  render_lines grouped = Ok out →
  filter is_source_line out
    = sorted_items grouped ≫= (λ item, (λ v, source_line (path v)) <$> item.2) ∧
  strictly_ascending str_str_lt (sorted_items grouped).*1 ∧
  (∀ k vids, (k, vids) ∈ sorted_items grouped ↔ grouped !! k = Some vids).
Proof.
  intros (t & ts & Ht & ->)%render_lines_inv. split; [|split].
  - rewrite !filter_app, render_sections_sources.
    rewrite (filter_none _ html_head)
      by (unfold html_head; repeat constructor; no_prefix 15).
    rewrite (filter_none _ (task_selector _)), (filter_none _ (model_selector _)).
    + rewrite (filter_none _ (script _)).
      * rewrite !filter_none; [|repeat constructor; no_prefix 15..].
        by rewrite app_nil_r.
      * unfold script. generalize (json_dumps (models_by_task_of grouped)).
        intros json. repeat constructor; no_prefix 15.
    + unfold model_selector. repeat (apply Forall_app; split);
        try (apply Forall_fmap, Forall_true; intros name; unfold option_line;
             simpl; no_prefix 15);
        repeat constructor; no_prefix 15.
    + unfold task_selector. repeat (apply Forall_app; split);
        try (apply Forall_fmap, Forall_true; intros name; unfold option_line;
             simpl; no_prefix 15);
        repeat constructor; no_prefix 15.
  - apply sorted_items_strictly.
  - intros k vids. rewrite sorted_items_perm. apply elem_of_map_to_list.
Qed.

Lemma page_sources_witness :
  ∃ out, render_lines (group_by_task_model six_runs) = Ok out ∧
         filter is_source_line out
         = (λ n, source_line (path (run_video n))) <$> [0; 1; 2; 3; 4].
Proof.
  destruct (render_lines (group_by_task_model six_runs)) as [out|e] eqn:Hout;
    [|vm_compute in Hout; discriminate Hout].
  exists out. split; [done|].
  destruct (page_sources _ _ Hout) as (-> & _).
  vm_compute. reflexivity.
Defined.




(** ** Where the document goes *)

(** X13. When the Locator returns at least one record, the Renderer
    returns a document for their grouping, and a run of [main] first
    prints the Locator's line.  Without [--out], or with an empty name,
    the document follows on standard output and no file is written; with
    a name, the document is written to the file of that name (as [Path]
    normalises it), once and whole, and standard output holds the
    Locator's line and the line [Wrote HTML to <name>] only.  The
    opening and writing of the file are taken to succeed. *)
Theorem main_outputs `{U : UnicodeData} (w : world) (out : option pystr)
    (v : VideoRecord) (recs : list VideoRecord) :
  (find_videos w).2 = Ok (v :: recs) →
  ∃ html,
    render_html (group_by_task_model (v :: recs)) = Ok html ∧
    (out = None ∨ out = Some [] →
     main w out = ([Stdout (locator_message w); Stdout html], Ok tt)) ∧
    (∀ name, out = Some name → name ≠ [] →
     main w out =
       ([Stdout (locator_message w);
         WriteFile (posix_path_str name) html;
         Stdout (lit "Wrote HTML to " ++ posix_path_str name)], Ok tt)).
Proof.
  intros Hrecs. pose proof (find_videos_message w) as Hmsg.
  destruct (tasks_of (group_by_task_model (v :: recs))) as [|t ts] eqn:Ht.
  { exfalso. eapply tasks_of_nonempty; [|exact Ht].
    by apply group_by_task_model_nonempty. }
  pose proof (render_lines_ok _ t ts Ht) as Hlines.
  eexists. split; [unfold render_html; rewrite Hlines; reflexivity|].
  unfold main. destruct (find_videos w) as [effs res].
  simpl in Hrecs, Hmsg. subst effs res.
  rewrite bind_Ok. unfold render_html. rewrite Hlines.
  cbn [fmap result_fmap]. unfold lift. rewrite bind_Ok. split.
  - intros [->| ->]; [done|]. by rewrite bool_decide_eq_true_2.
  - intros name -> Hname. rewrite bool_decide_eq_false_2 by done.
    unfold write_file. by rewrite bind_Ok.
Qed.

Lemma main_outputs_witness :
  ∃ html,
    main (U := sample_unicode) sample_world (Some (lit "pages/./grid.html")) =
      ([Stdout (locator_message sample_world);
        WriteFile (lit "pages/grid.html") html;
        Stdout (lit "Wrote HTML to pages/grid.html")], Ok tt).
Proof.
  destruct ((find_videos (U := sample_unicode) sample_world).2)
    as [[|v recs]|e] eqn:Hrecs;
    [vm_compute in Hrecs; discriminate Hrecs| |
     vm_compute in Hrecs; discriminate Hrecs].
  destruct (main_outputs (U := sample_unicode) sample_world
              (Some (lit "pages/./grid.html")) v recs Hrecs)
    as (html & _ & _ & Hfile).
  exists html. rewrite (Hfile _ eq_refl); [|discriminate].
  assert (posix_path_str (lit "pages/./grid.html") = lit "pages/grid.html")
    as -> by (vm_compute; reflexivity).
  reflexivity.
Defined.

(** ** The section elements of the document *)








































(** Names are written into the page as they are.  A task whose name
    holds a line break and the opening of a section gives a document
    with one group, seven places at which the text [<section] starts and
    six lines that open a section. *)
Example markup_in_a_name :
  size markup_grouping = 1 ∧
  occurrences section_tag <$> render_html markup_grouping = Ok 7 ∧
  (λ html, length (filter is_section_open (split_on 10 html)))
    <$> render_html markup_grouping = Ok 6.
Proof. split_and!; vm_compute; reflexivity. Qed.


